(** * A shallow embedding of [LidarController.h] (rikba/LIDAREnhanced)

    The controller drives up to [MAX_LIDARS] LidarLite sensors on one I2C bus
    from a non-blocking loop ([spinOnce]).  The controller's own code is
    translated into a state-and-failure monad over a [World]: the controller's
    fields, the clock read by [millis()], and the trace of bus transactions.
    The I2C bus ([I2CFunctions.h]) is an environment that answers each
    transaction as a function of the transactions issued before it, so it can
    be any stateful device.  A null or out-of-range [lidars[]] access is
    undefined behaviour in C++; it is the failure [None] of the monad. *)

From Stdlib Require Import ZArith List Bool Lia.
Import ListNotations.
Open Scope Z_scope.

(** ** Constants of [LidarController.h] *)

Definition STATUS_REGISTER : Z := 1.
Definition SIGNAL_STRENGTH_REGISTER : Z := 14.
Definition MEASURED_VALUE_REGISTER : Z := 143.
Definition CONTROL_REGISTER : Z := 0.
Definition OFFSET_REGISTER : Z := 19.
Definition LIDAR_TIMEOUT_MS : Z := 20.
Definition MAX_LIDARS : Z := 8.
Definition MAX_NACKS : Z := 10.
Definition FORCE_RESET_OFFSET : bool := true.
Definition SCALE_VELOCITY_REGISTER : Z := 69.
Definition VELOCITY_MODE_REGISTER : Z := 4.
Definition VELOCITY_MODE_DATA : Z := 160.

(** ** The sensor object ([LidarObject.h]) *)

(** Modelled from the spec: [LidarObject.h] is not part of the sources.
    The seven lifecycle states used by [spinOnce] (spec section 4.2:
    AWAITING_RESET = [NEED_RESET], RESET_IN_FLIGHT = [RESET_PENDING],
    POWERING_DOWN = [SHUTING_DOWN], ACQUISITION_COMPLETE = [ACQUISITION_DONE]). *)
Inductive LIDAR_STATE :=
| NEED_RESET
| RESET_PENDING
| SHUTING_DOWN
| NEED_CONFIGURE
| ACQUISITION_READY
| ACQUISITION_PENDING
| ACQUISITION_DONE.

Definition state_eqb (a b : LIDAR_STATE) : bool :=
  match a, b with
  | NEED_RESET, NEED_RESET | RESET_PENDING, RESET_PENDING
  | SHUTING_DOWN, SHUTING_DOWN | NEED_CONFIGURE, NEED_CONFIGURE
  | ACQUISITION_READY, ACQUISITION_READY
  | ACQUISITION_PENDING, ACQUISITION_PENDING
  | ACQUISITION_DONE, ACQUISITION_DONE => true
  | _, _ => false
  end.

(** Modelled from the spec: the fields of [LidarObject] the controller uses
    (spec section 3, SensorUnit): bus address, state, current and previous
    distance, signal strength, fault counter, the power pin driven by
    [on()]/[off()], and the start time of the timer armed by [timerUpdate()]. *)
Record LidarObject := mkLidar {
  address : Z;
  lidar_state : LIDAR_STATE;
  distance : Z;
  last_distance : Z;
  strength : Z;
  nacksCount : Z;
  powered : bool;
  timer : Z
}.

Definition with_state (o : LidarObject) (s : LIDAR_STATE) : LidarObject :=
  mkLidar (address o) s (distance o) (last_distance o) (strength o)
          (nacksCount o) (powered o) (timer o).
Definition with_distance (o : LidarObject) (d : Z) : LidarObject :=
  mkLidar (address o) (lidar_state o) d (distance o) (strength o)
          (nacksCount o) (powered o) (timer o).
Definition with_strength (o : LidarObject) (s : Z) : LidarObject :=
  mkLidar (address o) (lidar_state o) (distance o) (last_distance o) s
          (nacksCount o) (powered o) (timer o).
Definition with_nacks (o : LidarObject) (n : Z) : LidarObject :=
  mkLidar (address o) (lidar_state o) (distance o) (last_distance o)
          (strength o) n (powered o) (timer o).
Definition with_power (o : LidarObject) (p : bool) : LidarObject :=
  mkLidar (address o) (lidar_state o) (distance o) (last_distance o)
          (strength o) (nacksCount o) p (timer o).
Definition with_timer (o : LidarObject) (t : Z) : LidarObject :=
  mkLidar (address o) (lidar_state o) (distance o) (last_distance o)
          (strength o) (nacksCount o) (powered o) t.

(** Modelled from the spec: [checkTimer()] tells whether more than
    [LIDAR_TIMEOUT_MS] milliseconds passed since the last [timerUpdate()]. *)
Definition checkTimer (o : LidarObject) (now : Z) : bool :=
  LIDAR_TIMEOUT_MS <? now - timer o.

(** ** The bus and the world *)

(** Bus transactions and observer calls, in the order the controller issues
    them. *)
Inductive event :=
| EvIsOnline (a : Z)
| EvWrite (a r v : Z)
| EvReadByte (a r : Z)
| EvReadWord (a r : Z)
| EvNotify (i : Z).

(** The I2C layer: each answer may depend on the whole history.  [write]
    returns the nack code (0 = acknowledged); [readByte] returns the nack code
    and [Some b] when it stored [b] into the caller's buffer, [None] when it
    left the buffer alone; [readWord] returns the nack code and the two bytes
    found in the buffer afterwards (the buffer of [distance] and
    [changeAddress] is uninitialised, so on a failure they are arbitrary). *)
Record I2CBus := mkBus {
  isOnline : list event -> Z -> bool;
  i2c_write : list event -> Z -> Z -> Z -> Z;
  readByte : list event -> Z -> Z -> Z * option Z;
  readWord : list event -> Z -> Z -> Z * (Z * Z)
}.

(** The controller's fields [lidars[MAX_LIDARS]], [resetOngoing] and
    [count], the current [millis()] and the transaction trace (newest
    first). *)
Record World := mkWorld {
  lidars : list (option LidarObject);
  resetOngoing : bool;
  count : Z;
  now : Z;
  trace : list event
}.

Definition init_world : World :=
  mkWorld (repeat None (Z.to_nat MAX_LIDARS)) false 0 0 [].

(** ** The monad *)

Definition M (A : Type) := World -> option (A * World).

Definition ret {A} (a : A) : M A := fun w => Some (a, w).
Definition bind {A B} (m : M A) (f : A -> M B) : M B :=
  fun w => match m w with
           | Some (a, w') => f a w'
           | None => None
           end.

Notation "x <- m ;; k" := (bind m (fun x => k))
  (at level 61, m at next level, right associativity).
Notation "m ;; k" := (bind m (fun _ => k))
  (at level 61, right associativity).

(** Reaching the closing brace of a function declared to return a value,
    with no [return] statement, is undefined behaviour in C++. *)
Definition missing_return {A} : M A := fun _ => None.

Fixpoint set_nth {A} (l : list A) (n : nat) (x : A) : list A :=
  match l, n with
  | [], _ => []
  | _ :: t, O => x :: t
  | h :: t, S n' => h :: set_nth t n' x
  end.

Definition slot_ok (i : Z) : bool := (0 <=? i) && (i <? MAX_LIDARS).

(** [lidars[i]]: undefined behaviour when out of range or null. *)
Definition slot_at (l : list (option LidarObject)) (i : Z) : option LidarObject :=
  if slot_ok i then
    match nth_error l (Z.to_nat i) with
    | Some (Some o) => Some o
    | _ => None
    end
  else None.

Definition lidar_at (w : World) (i : Z) : option LidarObject :=
  slot_at (lidars w) i.

Definition get_lidar (i : Z) : M LidarObject :=
  fun w => match lidar_at w i with
           | Some o => Some (o, w)
           | None => None
           end.

Definition store_slot (i : Z) (o : LidarObject) (w : World) : World :=
  mkWorld (set_nth (lidars w) (Z.to_nat i) (Some o)) (resetOngoing w)
          (count w) (now w) (trace w).

(** [lidars[i] = o] (the pointer store of [add]). *)
Definition put_lidar (i : Z) (o : LidarObject) : M unit :=
  fun w => if slot_ok i then Some (tt, store_slot i o w) else None.

(** [lidars[i]->field = ...]: an update through the pointer. *)
Definition modify_lidar (i : Z) (f : LidarObject -> LidarObject) : M unit :=
  o <- get_lidar i ;; put_lidar i (f o).

Definition get_now : M Z := fun w => Some (now w, w).
Definition get_count : M Z := fun w => Some (count w, w).
Definition get_resetOngoing : M bool := fun w => Some (resetOngoing w, w).
Definition set_resetOngoing (b : bool) : M unit :=
  fun w => Some (tt, mkWorld (lidars w) b (count w) (now w) (trace w)).
Definition set_count (c : Z) : M unit :=
  fun w => Some (tt, mkWorld (lidars w) (resetOngoing w) c (now w) (trace w)).
Definition set_now (t : Z) : M unit :=
  fun w => Some (tt, mkWorld (lidars w) (resetOngoing w) (count w) t (trace w)).
Definition emit (e : event) : M unit :=
  fun w => Some (tt, mkWorld (lidars w) (resetOngoing w) (count w) (now w)
                            (e :: trace w)).

(** [(int)((char)b)] for the [uint8_t] [b], with the signed 8-bit [char]
    of the AVR boards. *)
Definition char_of_byte (b : Z) : Z :=
  let u := Z.land b 255 in if u <? 128 then u else u - 256.

(** ** The controller ([class LidarController]) *)

Section Controller.

Context (bus : I2CBus).

(** The four [I2C] primitives: ask the bus, then log the transaction. *)
Definition I2C_isOnline (a : Z) : M bool :=
  fun w => Some (isOnline bus (trace w) a,
                 mkWorld (lidars w) (resetOngoing w) (count w) (now w)
                         (EvIsOnline a :: trace w)).
Definition I2C_write (a r v : Z) : M Z :=
  fun w => Some (i2c_write bus (trace w) a r v,
                 mkWorld (lidars w) (resetOngoing w) (count w) (now w)
                         (EvWrite a r v :: trace w)).
Definition I2C_readByte (a r : Z) : M (Z * option Z) :=
  fun w => Some (readByte bus (trace w) a r,
                 mkWorld (lidars w) (resetOngoing w) (count w) (now w)
                         (EvReadByte a r :: trace w)).
Definition I2C_readWord (a r : Z) : M (Z * (Z * Z)) :=
  fun w => Some (readWord bus (trace w) a r,
                 mkWorld (lidars w) (resetOngoing w) (count w) (now w)
                         (EvReadWord a r :: trace w)).

(** [setState] *)
Definition setState (i : Z) (s : LIDAR_STATE) : M unit :=
  modify_lidar i (fun o => with_state o s).

(** [shouldIncrementNack] *)
Definition shouldIncrementNack (i nack : Z) : M Z :=
  if negb (nack =? 0)
  then modify_lidar i (fun o => with_nacks o (nacksCount o + 1)) ;; ret nack
  else ret nack.

(** [configure] *)
Definition configure (i configuration : Z) : M unit :=
  nack <- (if configuration =? 0 then
             o <- get_lidar i ;; I2C_write (address o) CONTROL_REGISTER 0
           else if configuration =? 1 then
             o <- get_lidar i ;; I2C_write (address o) 4 0
           else if configuration =? 2 then
             o <- get_lidar i ;; I2C_write (address o) 28 32
           else if configuration =? 3 then
             o <- get_lidar i ;; I2C_write (address o) 28 96
           else ret 0) ;;
  shouldIncrementNack i nack ;; ret tt.

(** [changeAddress] *)
Definition changeAddress (i : Z) : M Z :=
  o <- get_lidar i ;;
  let lidar_new := address o in
  on62 <- I2C_isOnline 98 ;;
  if negb on62 then shouldIncrementNack i 1 ;; ret 6 else
  onnew <- I2C_isOnline lidar_new ;;
  if onnew then shouldIncrementNack i 1 ;; ret 5 else
  rw <- I2C_readWord 98 150 ;;
  let '(nr, (serial0, serial1)) := rw in
  shouldIncrementNack i nr ;;
  n1 <- I2C_write 98 24 serial0 ;;
  n1' <- shouldIncrementNack i n1 ;;
  if negb (n1' =? 0) then ret 1 else
  n2 <- I2C_write 98 25 serial1 ;;
  n2' <- shouldIncrementNack i n2 ;;
  if negb (n2' =? 0) then ret 2 else
  n3 <- I2C_write 98 26 lidar_new ;;
  n3' <- shouldIncrementNack i n3 ;;
  if negb (n3' =? 0) then ret 3 else
  n4 <- I2C_write 98 30 8 ;;
  n4' <- shouldIncrementNack i n4 ;;
  if negb (n4' =? 0) then ret 4 else
  ret 0.

(** [status]: the one-byte buffer starts at 171. *)
Definition status (i : Z) : M Z :=
  o <- get_lidar i ;;
  rb <- I2C_readByte (address o) STATUS_REGISTER ;;
  let '(nack, stored) := rb in
  shouldIncrementNack i nack ;;
  ret (match stored with Some b => b | None => 171 end).

(** [async]: declared [uint8_t], but its body ends without a [return]. *)
Definition async (i : Z) : M Z :=
  o <- get_lidar i ;;
  nack <- I2C_write (address o) CONTROL_REGISTER 4 ;;
  shouldIncrementNack i nack ;; missing_return.

(** [distance]: returns the nack code and the value written to [*data]. *)
Definition distance_op (i : Z) : M (Z * Z) :=
  o <- get_lidar i ;;
  rw <- I2C_readWord (address o) MEASURED_VALUE_REGISTER ;;
  let '(nackCatcher, (b0, b1)) := rw in
  shouldIncrementNack i nackCatcher ;;
  ret (nackCatcher, Z.shiftl b0 8 + b1).

(** [signalStrength]: [buf] is the caller's byte before the call. *)
Definition signalStrength (i buf : Z) : M (Z * Z) :=
  o <- get_lidar i ;;
  rb <- I2C_readByte (address o) SIGNAL_STRENGTH_REGISTER ;;
  let '(nack, stored) := rb in
  shouldIncrementNack i nack ;;
  ret (nack, match stored with Some b => b | None => buf end).

(** [setOffset] *)
Definition setOffset (i data : Z) : M unit :=
  o <- get_lidar i ;;
  I2C_write (address o) OFFSET_REGISTER data ;; ret tt.

(** [scale]: the nack of the write is dropped. *)
Definition scale (i velocityScaling : Z) : M unit :=
  o <- get_lidar i ;;
  I2C_write (address o) SCALE_VELOCITY_REGISTER velocityScaling ;; ret tt.

(** [velocity]: [buf] is the uninitialised byte of [velocityArray]; the
    nacks of the three transactions are dropped. *)
Definition velocity (i buf : Z) : M Z :=
  o <- get_lidar i ;;
  I2C_write (address o) VELOCITY_MODE_REGISTER VELOCITY_MODE_DATA ;;
  I2C_write (address o) 0 4 ;;
  rb <- I2C_readByte (address o) 9 ;;
  let '(nack, stored) := rb in
  ret (char_of_byte (match stored with Some b => b | None => buf end)).

(** [getState] *)
Definition getState (i : Z) : M LIDAR_STATE :=
  o <- get_lidar i ;; ret (lidar_state o).

(** [distanceAndAsync]: returns the nack of the first read and the value
    written to [*data] by the last [distance] call. *)
Definition distanceAndAsync (i : Z) : M (Z * Z) :=
  r1 <- distance_op i ;;
  let '(nackCatcher, d1) := r1 in
  d <- (if negb (nackCatcher =? 0)
        then r2 <- distance_op i ;; ret (snd r2)
        else ret d1) ;;
  async i ;;
  ret (nackCatcher, d).

(** [resetLidar]: [off()], [timerUpdate()], state [SHUTING_DOWN]. *)
Definition resetLidar (i : Z) : M unit :=
  modify_lidar i (fun o => with_power o false) ;;
  t <- get_now ;;
  modify_lidar i (fun o => with_timer o t) ;;
  setState i SHUTING_DOWN.

(** [preReset] *)
Definition preReset (i : Z) : M unit :=
  set_resetOngoing true ;;
  modify_lidar i (fun o => with_power o true) ;;
  t <- get_now ;;
  modify_lidar i (fun o => with_timer o t).

(** [postReset] *)
Definition postReset (i : Z) : M unit :=
  changeAddress i ;; set_resetOngoing false.

(** [checkNacks]; [resetNacksCount()] clears the counter. *)
Definition checkNacks (i : Z) : M bool :=
  o <- get_lidar i ;;
  if MAX_NACKS <? nacksCount o
  then modify_lidar i (fun o => with_nacks o 0) ;; ret true
  else ret false.

(** [add]: [count] is a [uint8_t]. *)
Definition add (o : LidarObject) (id : Z) : M bool :=
  if MAX_LIDARS <=? id then ret false else
  put_lidar id o ;;
  resetLidar id ;;
  c <- get_count ;;
  set_count ((c + 1) mod 256) ;;
  ret true.

(** [getCount] *)
Definition getCount : M Z := get_count.

(** The test of a fresh reading [data] against the stored [distance]:
    [(abs(data - distance) > 100) | (data < 4 or data > 1000)]. *)
Definition suspect (data prev : Z) : bool :=
  (100 <? Z.abs (data - prev)) || ((data <? 4) || (1000 <? data)).

(** The [switch (getState(i))] of [spinOnce]. *)
Definition spin_case (i : Z) : M unit :=
  o <- get_lidar i ;;
  match lidar_state o with
  | NEED_CONFIGURE =>
      configure i 2 ;; setState i ACQUISITION_READY
  | ACQUISITION_READY =>
      async i ;; setState i ACQUISITION_PENDING
  | ACQUISITION_PENDING =>
      st <- status i ;;
      if negb (Z.testbit st 0) then
        dr <- distance_op i ;;
        let data := snd dr in
        o1 <- get_lidar i ;;
        (if suspect data (distance o1)
         then shouldIncrementNack i 1 ;; ret tt
         else ret tt) ;;
        modify_lidar i (fun o2 => with_distance o2 data) ;;
        setState i ACQUISITION_DONE
      else ret tt
  | ACQUISITION_DONE =>
      sr <- signalStrength i 0 ;;
      modify_lidar i (fun o2 => with_strength o2 (snd sr)) ;;
      emit (EvNotify i) ;;
      (if FORCE_RESET_OFFSET then setOffset i 0 else ret tt) ;;
      setState i ACQUISITION_READY
  | NEED_RESET =>
      busy <- get_resetOngoing ;;
      if negb busy then preReset i ;; setState i RESET_PENDING else ret tt
  | RESET_PENDING =>
      o1 <- get_lidar i ;;
      t <- get_now ;;
      if checkTimer o1 t then postReset i ;; setState i NEED_CONFIGURE
      else ret tt
  | SHUTING_DOWN =>
      o1 <- get_lidar i ;;
      t <- get_now ;;
      if checkTimer o1 t then postReset i ;; setState i NEED_RESET
      else ret tt
  end.

(** One iteration of the [for] loop of [spinOnce]. *)
Definition spin_slot (i : Z) : M unit :=
  spin_case i ;;
  r <- checkNacks i ;;
  if r then resetLidar i else ret tt.

(** [for (uint8_t i = 0; i < count; i++)]; [count] is below 256. *)
Fixpoint spin_from (fuel : nat) (i : Z) : M unit :=
  match fuel with
  | O => ret tt
  | S f =>
      c <- get_count ;;
      if i <? c then spin_slot i ;; spin_from f (i + 1) else ret tt
  end.

Definition spinOnce : M unit := spin_from 256 0.

(** A driver: registrations and loop passes, each at a given [millis()]. *)
Inductive cmd :=
| CAdd (t : Z) (o : LidarObject) (id : Z)
| CSpin (t : Z).

Definition run_cmd (c : cmd) : M unit :=
  match c with
  | CAdd t o id => set_now t ;; add o id ;; ret tt
  | CSpin t => set_now t ;; spinOnce
  end.

Fixpoint run (cs : list cmd) : M unit :=
  match cs with
  | [] => ret tt
  | c :: cs' => run_cmd c ;; run cs'
  end.

End Controller.

(** ** Observations and scenarios *)

(** A sensor in a reset phase ([RESET_PENDING] or [SHUTING_DOWN]) with its
    power pin enabled. *)
Definition reset_phase_powered (o : LidarObject) : bool :=
  (state_eqb (lidar_state o) RESET_PENDING
   || state_eqb (lidar_state o) SHUTING_DOWN) && powered o.

Definition reset_phase_count (w : World) : nat :=
  length (filter (fun so => match so with
                            | Some o => reset_phase_powered o
                            | None => false
                            end) (lidars w)).

(** The transition table of spec section 4.2, edge by edge. *)
Inductive lifecycle_edge : LIDAR_STATE -> LIDAR_STATE -> Prop :=
| edge_shutdown : lifecycle_edge SHUTING_DOWN NEED_RESET
| edge_power_on : lifecycle_edge NEED_RESET RESET_PENDING
| edge_reassign : lifecycle_edge RESET_PENDING NEED_CONFIGURE
| edge_configure : lifecycle_edge NEED_CONFIGURE ACQUISITION_READY
| edge_start : lifecycle_edge ACQUISITION_READY ACQUISITION_PENDING
| edge_read : lifecycle_edge ACQUISITION_PENDING ACQUISITION_DONE
| edge_publish : lifecycle_edge ACQUISITION_DONE ACQUISITION_READY.

(** A bus on which the factory address 0x62 answers, every other address is
    silent, and every transaction is acknowledged. *)
Definition healthy_bus : I2CBus :=
  mkBus (fun _ a => a =? 98) (fun _ _ _ _ => 0)
        (fun _ _ _ => (0, Some 0)) (fun _ _ _ => (0, (1, 244))).

(** A bus on which every write is refused. *)
Definition nack_writes_bus : I2CBus :=
  mkBus (fun _ a => a =? 98) (fun _ _ _ _ => 1)
        (fun _ _ _ => (0, Some 0)) (fun _ _ _ => (0, (1, 244))).

(** A bus whose identifier read at 0x62 fails, all else acknowledged. *)
Definition serial_fail_bus : I2CBus :=
  mkBus (fun _ a => a =? 98) (fun _ _ _ _ => 0)
        (fun _ _ _ => (0, Some 0))
        (fun _ a _ => if a =? 98 then (1, (0, 0)) else (0, (1, 244))).

(** A bus on which no device answers and every transaction fails. *)
Definition silent_bus : I2CBus :=
  mkBus (fun _ _ => false) (fun _ _ _ _ => 2)
        (fun _ _ _ => (2, None)) (fun _ _ _ => (2, (0, 0))).

(** A bus reporting a finished measurement of 1500 (0x05DC). *)
Definition reading_1500_bus : I2CBus :=
  mkBus (fun _ a => a =? 98) (fun _ _ _ _ => 0)
        (fun _ _ _ => (0, Some 0)) (fun _ _ _ => (0, (5, 220))).

(** A bus whose distance read fails, leaving 0x01F4 (500) in the buffer. *)
Definition distance_fail_bus : I2CBus :=
  mkBus (fun _ a => a =? 98) (fun _ _ _ _ => 0)
        (fun _ _ _ => (0, Some 0)) (fun _ _ _ => (2, (1, 244))).

Definition w_pending : World :=
  mkWorld (Some (mkLidar 100 ACQUISITION_PENDING 500 480 0 0 true 0)
           :: repeat None 7) false 1 0 [].

Definition lidarA : LidarObject := mkLidar 100 NEED_RESET 0 0 0 0 true 0.
Definition lidarB : LidarObject := mkLidar 102 NEED_RESET 0 0 0 0 true 0.

(** Sensor A registered at 0 ms and reset at 100 ms; sensor B registered at
    100 ms while A waits in [NEED_RESET]. *)
Definition two_resets : list cmd :=
  [CAdd 0 lidarA 0; CSpin 100; CAdd 100 lidarB 1; CSpin 110; CSpin 125;
   CSpin 126].

(** Nine registrations of one sensor at slot 0. *)
Definition nine_adds : list cmd := repeat (CAdd 0 lidarA 0) 9.

(** A world with one configured-to-be sensor at slot 0 whose fault counter
    is at the threshold. *)
Definition w_at_threshold : World :=
  mkWorld (Some (mkLidar 100 NEED_CONFIGURE 0 0 0 10 true 0)
           :: repeat None 7) false 1 0 [].

Definition w_reassign : World :=
  mkWorld (Some (mkLidar 100 RESET_PENDING 0 0 0 0 true 0)
           :: repeat None 7) true 1 50 [].

(** One sensor at slot 0 in each of the other states. *)
Definition w_ready : World :=
  mkWorld (Some (mkLidar 100 ACQUISITION_READY 0 0 0 0 true 0)
           :: repeat None 7) false 1 0 [].
Definition w_done : World :=
  mkWorld (Some (mkLidar 100 ACQUISITION_DONE 500 480 0 0 true 0)
           :: repeat None 7) false 1 0 [].
Definition w_need_reset (latch : bool) : World :=
  mkWorld (Some lidarA :: repeat None 7) latch 1 0 [].

(** [count] says one sensor but no slot holds one. *)
Definition w_empty_slot : World := mkWorld (repeat None 8) false 1 0 [].

(** [count] at 9, as after [nine_adds]. *)
Definition w_overfull : World :=
  mkWorld (Some lidarA :: repeat None 7) false 9 0 [].

(** The record [checkNacks] and [resetLidar] leave behind at time [t]:
    counter cleared, power off, timer armed, state [SHUTING_DOWN]. *)
Definition forced_reset (o : LidarObject) (t : Z) : LidarObject :=
  mkLidar (address o) SHUTING_DOWN (distance o) (last_distance o)
          (strength o) 0 false t.

(** Registration ids of [CAdd] commands that reach [lidars[]]. *)
Fixpoint add_ids (cs : list cmd) : list Z :=
  match cs with
  | [] => []
  | CAdd _ _ id :: cs' => if slot_ok id then id :: add_ids cs' else add_ids cs'
  | CSpin _ :: cs' => add_ids cs'
  end.

(** [n] calls of [changeAddress i]. *)
Fixpoint changeAddress_n (bus : I2CBus) (n : nat) (i : Z) : M unit :=
  match n with
  | O => ret tt
  | S n' => changeAddress bus i ;; changeAddress_n bus n' i
  end.

(** One more on the fault counter when [nack] is a failure code. *)
Definition nack_inc (nack : Z) : Z := if nack =? 0 then 0 else 1.

(** Operations that leave [count] alone. *)
Definition keeps_count {A} (m : M A) : Prop :=
  forall w a w', m w = Some (a, w') -> count w' = count w.

(** Operations that change no slot of [lidars] other than [i]. *)
Definition only_slot {A} (i : Z) (m : M A) : Prop :=
  forall w a w', m w = Some (a, w') ->
  forall j, j <> i -> lidar_at w' j = lidar_at w j.

(** The register of the write whose refusal makes [changeAddress] return
    [code] (1 to 4). *)
Definition failed_step_register (code : Z) : Z :=
  if code =? 4 then 30 else 23 + code.

(** ** General lemmas about the monad and the slot store *)

Lemma bind_some {A B} (m : M A) (f : A -> M B) w a w1 :
  m w = Some (a, w1) -> bind m f w = f a w1.
Proof. unfold bind; intros ->; reflexivity. Qed.

Lemma bind_inv {A B} (m : M A) (f : A -> M B) w b w' :
  bind m f w = Some (b, w') ->
  exists a w1, m w = Some (a, w1) /\ f a w1 = Some (b, w').
Proof.
  unfold bind; destruct (m w) as [[a w1]|]; intros H; [eauto|discriminate].
Qed.

Lemma slot_at_ok l i o : slot_at l i = Some o -> slot_ok i = true.
Proof. unfold slot_at; destruct (slot_ok i); congruence. Qed.

Lemma nth_error_set_nth_same {A} (l : list A) n x y :
  nth_error l n = Some y -> nth_error (set_nth l n x) n = Some x.
Proof.
  revert n; induction l as [|h t IH]; intros [|n]; cbn; try discriminate; auto.
Qed.

Lemma nth_error_set_nth_other {A} (l : list A) n m x :
  n <> m -> nth_error (set_nth l n x) m = nth_error l m.
Proof.
  revert n m; induction l as [|h t IH]; intros [|n] [|m] Hnm; cbn; auto.
  - congruence.
Qed.

Lemma set_nth_set_nth {A} (l : list A) n x y :
  set_nth (set_nth l n x) n y = set_nth l n y.
Proof.
  revert n; induction l as [|h t IH]; intros [|n]; cbn; f_equal; auto.
Qed.

Lemma slot_at_set_same l i o o' :
  slot_at l i = Some o -> slot_at (set_nth l (Z.to_nat i) (Some o')) i = Some o'.
Proof.
  unfold slot_at; destruct (slot_ok i); [|discriminate].
  destruct (nth_error l (Z.to_nat i)) as [[y|]|] eqn:E; try discriminate.
  intros _; erewrite nth_error_set_nth_same; eauto.
Qed.

Lemma slot_at_set_other l i j o :
  slot_ok i = true -> slot_ok j = true -> i <> j ->
  slot_at (set_nth l (Z.to_nat i) o) j = slot_at l j.
Proof.
  unfold slot_at, slot_ok; intros Hi Hj Hij; rewrite Hj.
  rewrite nth_error_set_nth_other; auto.
  apply andb_true_iff in Hi, Hj; destruct Hi as [Hi _], Hj as [Hj _].
  apply Z.leb_le in Hi, Hj; lia.
Qed.

Lemma set_nth_slot l i o :
  slot_at l i = Some o -> set_nth l (Z.to_nat i) (Some o) = l.
Proof.
  unfold slot_at; destruct (slot_ok i); [|discriminate].
  generalize (Z.to_nat i); induction l as [|h l IH]; intros [|n] H;
    cbn in *; try discriminate.
  - destruct h; congruence.
  - f_equal; auto.
Qed.

Arguments slot_at : simpl never.

(** Symbolic execution of a controller operation on a world whose slot [i]
    holds [o] ([Hs : slot_at l i = Some o], [Hok : slot_ok i = true]). *)
Ltac sym_core Hs Hok :=
  unfold spin_slot, spin_case, checkNacks, changeAddress, postReset, preReset,
    resetLidar, configure, status, async, distance_op, signalStrength,
    setOffset, setState, shouldIncrementNack, modify_lidar, get_lidar,
    put_lidar, lidar_at, store_slot, I2C_isOnline, I2C_write, I2C_readByte,
    I2C_readWord, get_now, get_resetOngoing, set_resetOngoing, emit,
    missing_return, bind, ret, nack_inc in *;
  repeat first
    [ progress (cbn -[slot_at slot_ok Z.to_nat Z.shiftl Z.testbit Z.abs])
    | rewrite set_nth_set_nth
    | rewrite (slot_at_set_same _ _ _ _ Hs)
    | rewrite Hs
    | rewrite Hok ].

Ltac sym Hs :=
  let Hok := fresh "Hok" in
  pose proof (slot_at_ok _ _ _ Hs) as Hok;
  sym_core Hs Hok.

(** [sym], rewriting with the answers of the bus given as hypotheses and
    splitting on the tests that stay open. *)
Ltac crunch Hs :=
  let Hok := fresh "Hok" in
  pose proof (slot_at_ok _ _ _ Hs) as Hok;
  repeat progress
    (sym_core Hs Hok;
     try first
       [ match goal with
         | H : ?a = _ |- context [?a] =>
             lazymatch a with
             | slot_at _ _ => fail
             | ?f _ => rewrite H
             | _ => fail
             end
         end
       | match goal with
         | |- context [match ?b with _ => _ end] =>
             let T := type of b in
             lazymatch T with
             | bool => destruct b eqn:?
             | _ =>
                 lazymatch b with
                 | readWord _ _ _ _ => destruct b eqn:?
                 | readByte _ _ _ _ => destruct b eqn:?
                 | _ => is_var b; destruct b eqn:?
                 end
             end
         end ]).

(** Closes [Some (tt, w1) = Some (tt, w2)] where the two worlds differ in
    how the record stored at slot [i] is written. *)
Ltac fin_slot :=
  match goal with
  | |- Some (_, mkWorld (set_nth _ _ (Some ?a)) _ _ _ _)
       = Some (_, mkWorld (set_nth _ _ (Some ?b)) _ _ _ _) =>
      replace a with b; [reflexivity|];
      unfold with_state, with_distance, with_strength, with_nacks,
        with_power, with_timer;
      cbn -[Z.shiftl Z.testbit Z.abs];
      f_equal; lia
  end.

(** ** The [ACQUISITION_PENDING] case *)

Section Pending.
Context (bus : I2CBus).

Lemma pending_case l r c t tr i o ns os nd b0 b1 :
  slot_at l i = Some o -> lidar_state o = ACQUISITION_PENDING ->
  readByte bus tr (address o) STATUS_REGISTER = (ns, os) ->
  Z.testbit (match os with Some b => b | None => 171 end) 0 = false ->
  readWord bus (EvReadByte (address o) STATUS_REGISTER :: tr) (address o)
           MEASURED_VALUE_REGISTER = (nd, (b0, b1)) ->
  spin_case bus i (mkWorld l r c t tr) =
  Some (tt, mkWorld
              (set_nth l (Z.to_nat i)
                 (Some (mkLidar (address o) ACQUISITION_DONE
                          (Z.shiftl b0 8 + b1) (distance o) (strength o)
                          (nacksCount o + nack_inc ns + nack_inc nd
                           + (if suspect (Z.shiftl b0 8 + b1) (distance o)
                              then 1 else 0))
                          (powered o) (timer o))))
              r c t
              (EvReadWord (address o) MEASURED_VALUE_REGISTER
               :: EvReadByte (address o) STATUS_REGISTER :: tr)).
Proof.
  intros Hs Hst H1 H2 H3.
  crunch Hs.
  all: try discriminate.
  all: fin_slot.
Qed.

End Pending.

(** ** One iteration of the loop ([spin_slot]) *)

Section Slot.
Context (bus : I2CBus).

Lemma spin_case_edge l r c t tr i o :
  slot_at l i = Some o ->
  match spin_case bus i (mkWorld l r c t tr) with
  | Some (_, w') =>
      exists om, lidar_at w' i = Some om
        /\ (lidar_state om = lidar_state o
            \/ lifecycle_edge (lidar_state o) (lidar_state om))
  | None => True
  end.
Proof.
  intros Hs.
  destruct (lidar_state o) eqn:Est; crunch Hs.
  all: try exact I.
  all: eexists; split; [reflexivity|].
  all: unfold with_state, with_distance, with_strength, with_nacks,
         with_power, with_timer; cbn [lidar_state];
       rewrite ?Est; auto using lifecycle_edge.
Qed.

Lemma check_and_reset w i om :
  lidar_at w i = Some om ->
  (r <- checkNacks i ;; if r then resetLidar i else ret tt) w =
  Some (tt, if MAX_NACKS <? nacksCount om
            then store_slot i (forced_reset om (now w)) w
            else w).
Proof.
  destruct w as [l r c t tr]; unfold lidar_at; cbn [lidars now]; intros Hs.
  crunch Hs; unfold store_slot; cbn [lidars resetOngoing count now trace].
  all: first [reflexivity | fin_slot].
Qed.

Lemma spin_slot_split w i o w' :
  lidar_at w i = Some o -> spin_slot bus i w = Some (tt, w') ->
  exists wm om, spin_case bus i w = Some (tt, wm)
    /\ lidar_at wm i = Some om
    /\ (lidar_state om = lidar_state o
        \/ lifecycle_edge (lidar_state o) (lidar_state om))
    /\ w' = if MAX_NACKS <? nacksCount om
            then store_slot i (forced_reset om (now wm)) wm
            else wm.
Proof.
  destruct w as [l r c t tr]; intros Hs Hrun.
  pose proof (spin_case_edge l r c t tr i o Hs) as E.
  unfold spin_slot in Hrun; apply bind_inv in Hrun as ([] & wm & H1 & H2).
  rewrite H1 in E; destruct E as (om & H3 & H4).
  exists wm, om; repeat split; auto.
  rewrite (check_and_reset wm i om H3) in H2; injection H2; auto.
Qed.

End Slot.

(** ** Operations that leave [count] alone *)

Lemma keeps_count_ret {A} (a : A) : keeps_count (ret a).
Proof. intros w b w' H; injection H; intros; subst; reflexivity. Qed.

Lemma keeps_count_missing_return {A} : keeps_count (@missing_return A).
Proof. intros w b w' H; discriminate. Qed.

Lemma keeps_count_bind {A B} (m : M A) (f : A -> M B) :
  keeps_count m -> (forall a, keeps_count (f a)) -> keeps_count (bind m f).
Proof.
  intros Hm Hf w b w' H; apply bind_inv in H as (a & w1 & H1 & H2).
  rewrite (Hf _ _ _ _ H2); eapply Hm; eauto.
Qed.

Create HintDb kc.

Ltac kc :=
  repeat first
    [ apply keeps_count_bind; intros
    | apply keeps_count_ret
    | apply keeps_count_missing_return
    | solve [eauto with kc]
    | match goal with
      | |- keeps_count (if ?b then _ else _) => destruct b
      | |- keeps_count (match ?x with _ => _ end) => destruct x
      end
    | intros ?w ?a ?w' ?H; injection H; intros; subst; reflexivity
    | intros ?w ?a ?w' ?H; cbv beta in H;
      match type of H with
      | match ?x with _ => _ end = _ => destruct x; [|discriminate]
      | (if ?x then _ else _) = _ => destruct x; [|discriminate]
      end; injection H; intros; subst; reflexivity ].

Section KeepsCount.
Context (bus : I2CBus).

Lemma kc_get_lidar i : keeps_count (get_lidar i).
Proof. unfold get_lidar; kc. Qed.
Lemma kc_put_lidar i o : keeps_count (put_lidar i o).
Proof. unfold put_lidar; kc. Qed.
Lemma kc_get_now : keeps_count get_now.
Proof. unfold get_now; kc. Qed.
Lemma kc_get_count : keeps_count get_count.
Proof. unfold get_count; kc. Qed.
Lemma kc_get_resetOngoing : keeps_count get_resetOngoing.
Proof. unfold get_resetOngoing; kc. Qed.
Lemma kc_set_resetOngoing b : keeps_count (set_resetOngoing b).
Proof. unfold set_resetOngoing; kc. Qed.
Lemma kc_set_now t : keeps_count (set_now t).
Proof. unfold set_now; kc. Qed.
Lemma kc_emit e : keeps_count (emit e).
Proof. unfold emit; kc. Qed.
Lemma kc_isOnline a : keeps_count (I2C_isOnline bus a).
Proof. unfold I2C_isOnline; kc. Qed.
Lemma kc_write a r v : keeps_count (I2C_write bus a r v).
Proof. unfold I2C_write; kc. Qed.
Lemma kc_readByte a r : keeps_count (I2C_readByte bus a r).
Proof. unfold I2C_readByte; kc. Qed.
Lemma kc_readWord a r : keeps_count (I2C_readWord bus a r).
Proof. unfold I2C_readWord; kc. Qed.

#[local] Hint Resolve kc_get_lidar kc_put_lidar kc_get_now kc_get_count
  kc_get_resetOngoing kc_set_resetOngoing kc_set_now kc_emit kc_isOnline
  kc_write kc_readByte kc_readWord : kc.

Lemma kc_modify_lidar i f : keeps_count (modify_lidar i f).
Proof. unfold modify_lidar; kc. Qed.
#[local] Hint Resolve kc_modify_lidar : kc.
Lemma kc_setState i s : keeps_count (setState i s).
Proof. unfold setState; kc. Qed.
Lemma kc_shouldIncrementNack i n : keeps_count (shouldIncrementNack i n).
Proof. unfold shouldIncrementNack; kc. Qed.
#[local] Hint Resolve kc_setState kc_shouldIncrementNack : kc.
Lemma kc_changeAddress i : keeps_count (changeAddress bus i).
Proof. unfold changeAddress; kc. Qed.
Lemma kc_configure i c : keeps_count (configure bus i c).
Proof. unfold configure; kc. Qed.
Lemma kc_status i : keeps_count (status bus i).
Proof. unfold status; kc. Qed.
Lemma kc_async i : keeps_count (async bus i).
Proof. unfold async; kc. Qed.
Lemma kc_distance_op i : keeps_count (distance_op bus i).
Proof. unfold distance_op; kc. Qed.
Lemma kc_signalStrength i b : keeps_count (signalStrength bus i b).
Proof. unfold signalStrength; kc. Qed.
Lemma kc_setOffset i d : keeps_count (setOffset bus i d).
Proof. unfold setOffset; kc. Qed.
Lemma kc_resetLidar i : keeps_count (resetLidar i).
Proof. unfold resetLidar; kc. Qed.
Lemma kc_preReset i : keeps_count (preReset i).
Proof. unfold preReset; kc. Qed.
#[local] Hint Resolve kc_changeAddress kc_configure kc_status kc_async
  kc_distance_op kc_signalStrength kc_setOffset kc_resetLidar kc_preReset : kc.
Lemma kc_postReset i : keeps_count (postReset bus i).
Proof. unfold postReset; kc. Qed.
Lemma kc_checkNacks i : keeps_count (checkNacks i).
Proof. unfold checkNacks; kc. Qed.
#[local] Hint Resolve kc_postReset kc_checkNacks : kc.
Lemma kc_spin_case i : keeps_count (spin_case bus i).
Proof. unfold spin_case; kc. Qed.
#[local] Hint Resolve kc_spin_case : kc.
Lemma kc_spin_slot i : keeps_count (spin_slot bus i).
Proof. unfold spin_slot; kc. Qed.
#[local] Hint Resolve kc_spin_slot : kc.
Lemma kc_spinOnce : keeps_count (spinOnce bus).
Proof.
  unfold spinOnce; generalize 0; generalize 256%nat as fuel.
  induction fuel as [|f IH]; intros j; cbn [spin_from]; kc.
Qed.

End KeepsCount.

Lemma add_count o id w b w' :
  add o id w = Some (b, w') ->
  (slot_ok id = true /\ count w' = (count w + 1) mod 256)
  \/ (slot_ok id = false /\ w' = w /\ b = false).
Proof.
  unfold add; destruct (MAX_LIDARS <=? id) eqn:E.
  - intros H; injection H; intros; subst; right; split; auto.
    unfold slot_ok; apply Z.leb_le in E; unfold MAX_LIDARS in *.
    rewrite (proj2 (Z.ltb_ge id 8)) by lia; apply andb_false_r.
  - intros H.
    apply bind_inv in H as (u1 & w1 & H1 & H).
    apply bind_inv in H as (u2 & w2 & H2 & H).
    apply bind_inv in H as (c & w3 & H3 & H).
    apply bind_inv in H as (u4 & w4 & H4 & H).
    unfold put_lidar in H1; destruct (slot_ok id) eqn:Hok; [|discriminate].
    left; split; [reflexivity|].
    unfold ret in H; injection H; intros; subst.
    unfold get_count in H3; injection H3; intros; subst.
    unfold set_count in H4; injection H4; intros; subst; cbn.
    rewrite (kc_resetLidar _ _ _ _ H2).
    injection H1; intros; subst; reflexivity.
Qed.

Lemma run_count bus cs w w' :
  run bus cs w = Some (tt, w') -> 0 <= count w < 256 ->
  count w' = (count w + Z.of_nat (length (add_ids cs))) mod 256.
Proof.
  revert w; induction cs as [|c cs IH]; intros w H Hr; cbn [run] in H.
  - injection H; intros; subst; cbn; rewrite Z.add_0_r, Z.mod_small; auto.
  - apply bind_inv in H as ([] & w1 & H1 & H2).
    destruct c as [t o id|t]; cbn [run_cmd add_ids] in *.
    + apply bind_inv in H1 as ([] & w0 & H0 & H1).
      apply bind_inv in H1 as (b & w1' & Ha & H1).
      unfold ret in H1; injection H1; intros; subst.
      pose proof (kc_set_now _ _ _ _ H0) as Hc0.
      destruct (add_count _ _ _ _ _ Ha) as [[Hok Hc]|[Hok [-> ->]]];
        rewrite Hok.
      * rewrite (IH _ H2) by (rewrite Hc; apply Z.mod_pos_bound; lia).
        rewrite Hc, Hc0, Zplus_mod_idemp_l; cbn [length]; f_equal; lia.
      * rewrite (IH _ H2) by lia; rewrite Hc0; reflexivity.
    + apply bind_inv in H1 as ([] & w0 & H0 & H1).
      pose proof (kc_set_now _ _ _ _ H0) as Hc0.
      pose proof (kc_spinOnce _ _ _ _ H1) as Hc1.
      rewrite (IH _ H2) by lia; rewrite Hc1, Hc0; reflexivity.
Qed.

Lemma slot_at_set_in l i o :
  slot_ok i = true -> (Z.to_nat i < length l)%nat ->
  slot_at (set_nth l (Z.to_nat i) (Some o)) i = Some o.
Proof.
  intros Hok Hl; unfold slot_at; rewrite Hok.
  destruct (nth_error l (Z.to_nat i)) as [y|] eqn:E.
  - erewrite nth_error_set_nth_same by exact E; reflexivity.
  - apply nth_error_None in E; lia.
Qed.

Lemma add_in_range w o id :
  0 <= id < MAX_LIDARS -> length (lidars w) = Z.to_nat MAX_LIDARS ->
  add o id w =
  Some (true, mkWorld (set_nth (lidars w) (Z.to_nat id)
                         (Some (mkLidar (address o) SHUTING_DOWN (distance o)
                                  (last_distance o) (strength o)
                                  (nacksCount o) false (now w))))
                      (resetOngoing w) ((count w + 1) mod 256) (now w)
                      (trace w)).
Proof.
  destruct w as [l r c t tr]; cbn [lidars resetOngoing count now trace].
  intros Hid Hl.
  assert (Hok : slot_ok id = true)
    by (unfold slot_ok; apply andb_true_iff; split; [apply Z.leb_le | apply Z.ltb_lt]; lia).
  assert (Hlen : (Z.to_nat id < length l)%nat)
    by (unfold MAX_LIDARS in *; rewrite Hl; lia).
  unfold add; rewrite (proj2 (Z.leb_gt MAX_LIDARS id)) by lia.
  unfold resetLidar, setState, modify_lidar, get_lidar, put_lidar, lidar_at,
    store_slot, get_now, get_count, set_count, bind, ret.
  rewrite Hok; cbn -[slot_at Z.to_nat].
  repeat (rewrite (slot_at_set_in _ _ _ Hok Hlen); cbn -[slot_at Z.to_nat];
          rewrite ?set_nth_set_nth).
  reflexivity.
Qed.

Lemma add_ids_slots cs x : In x (add_ids cs) -> slot_ok x = true.
Proof.
  induction cs as [|[t o id|t] cs IH]; cbn; try tauto.
  destruct (slot_ok id) eqn:E; cbn; [intros [<-|H]|]; auto.
Qed.

Lemma slots_nodup_length l :
  NoDup l -> (forall x, In x l -> slot_ok x = true) -> (length l <= 8)%nat.
Proof.
  intros Hnd Hin.
  change 8%nat with (length [0;1;2;3;4;5;6;7]).
  apply NoDup_incl_length; auto.
  intros x Hx; specialize (Hin x Hx); unfold slot_ok, MAX_LIDARS in Hin.
  apply andb_true_iff in Hin as [H1 H2]; apply Z.leb_le in H1;
    apply Z.ltb_lt in H2.
  assert (x = 0 \/ x = 1 \/ x = 2 \/ x = 3 \/ x = 4 \/ x = 5 \/ x = 6 \/ x = 7)
    as Hx' by lia.
  repeat destruct Hx' as [->|Hx']; subst; cbn; tauto.
Qed.

(** ** Address reassignment ([changeAddress]) *)

Section ChangeAddress.
Context (bus : I2CBus).

Lemma changeAddress_offline l r c t tr i o :
  slot_at l i = Some o -> isOnline bus tr 98 = false ->
  changeAddress bus i (mkWorld l r c t tr) =
  Some (6, mkWorld (set_nth l (Z.to_nat i)
                      (Some (with_nacks o (nacksCount o + 1))))
                   r c t (EvIsOnline 98 :: tr)).
Proof. intros Hs Hon. sym Hs. rewrite Hon. sym Hs. reflexivity. Qed.

Lemma changeAddress_occupied l r c t tr i o :
  slot_at l i = Some o -> isOnline bus tr 98 = true ->
  isOnline bus (EvIsOnline 98 :: tr) (address o) = true ->
  changeAddress bus i (mkWorld l r c t tr) =
  Some (5, mkWorld (set_nth l (Z.to_nat i)
                      (Some (with_nacks o (nacksCount o + 1))))
                   r c t (EvIsOnline (address o) :: EvIsOnline 98 :: tr)).
Proof.
  intros Hs H1 H2. sym Hs. rewrite H1. sym Hs. rewrite H2. sym Hs.
  reflexivity.
Qed.

Lemma changeAddress_serial_failed l r c t tr i o n s0 s1 :
  slot_at l i = Some o -> isOnline bus tr 98 = true ->
  isOnline bus (EvIsOnline 98 :: tr) (address o) = false ->
  readWord bus (EvIsOnline (address o) :: EvIsOnline 98 :: tr) 98 150
    = (n, (s0, s1)) -> n <> 0 ->
  (forall tr' reg v, i2c_write bus tr' 98 reg v = 0) ->
  changeAddress bus i (mkWorld l r c t tr) =
  Some (0, mkWorld (set_nth l (Z.to_nat i)
                      (Some (with_nacks o (nacksCount o + 1))))
                   r c t
                   (EvWrite 98 30 8 :: EvWrite 98 26 (address o)
                    :: EvWrite 98 25 s1 :: EvWrite 98 24 s0
                    :: EvReadWord 98 150 :: EvIsOnline (address o)
                    :: EvIsOnline 98 :: tr)).
Proof.
  intros Hs H1 H2 H3 Hn Hw. sym Hs. rewrite H1. sym Hs. rewrite H2. sym Hs.
  rewrite H3. sym Hs. rewrite (proj2 (Z.eqb_neq n 0) Hn). sym Hs.
  do 4 (rewrite Hw; sym Hs). reflexivity.
Qed.

Lemma changeAddress_n_refused (k : nat) l r c t tr i o :
  slot_at l i = Some o ->
  (forall tr', isOnline bus tr' 98 = false
               \/ isOnline bus (EvIsOnline 98 :: tr') (address o) = true) ->
  exists tr', changeAddress_n bus k i (mkWorld l r c t tr) =
    Some (tt, mkWorld (set_nth l (Z.to_nat i)
                         (Some (with_nacks o (nacksCount o + Z.of_nat k))))
                      r c t tr').
Proof.
  intros Hs Hoff; revert o l tr Hs Hoff; induction k as [|k IH];
    intros o l tr Hs Hoff.
  - exists tr; cbn; unfold ret.
    replace (with_nacks o (nacksCount o + 0)) with o
      by (destruct o; unfold with_nacks; cbn; rewrite Z.add_0_r; reflexivity).
    rewrite (set_nth_slot _ _ _ Hs); reflexivity.
  - cbn [changeAddress_n]; unfold bind at 1.
    assert (exists tr1, changeAddress bus i (mkWorld l r c t tr) =
              Some (if isOnline bus tr 98 then 5 else 6,
                    mkWorld (set_nth l (Z.to_nat i)
                               (Some (with_nacks o (nacksCount o + 1))))
                            r c t tr1)) as [tr1 ->].
    { destruct (isOnline bus tr 98) eqn:E.
      - destruct (Hoff tr) as [E'|E']; [congruence|].
        eexists; apply changeAddress_occupied; auto.
      - eexists; apply changeAddress_offline; auto. }
    destruct (IH (with_nacks o (nacksCount o + 1))
                 (set_nth l (Z.to_nat i) (Some (with_nacks o (nacksCount o + 1))))
                 tr1) as [tr' Htr'].
    { eapply slot_at_set_same; eauto. }
    { exact Hoff. }
    exists tr'; rewrite Htr', set_nth_set_nth; do 4 f_equal.
    rewrite Nat2Z.inj_succ; destruct o; unfold with_nacks; cbn -[Z.of_nat].
    do 2 f_equal; lia.
Qed.

End ChangeAddress.

Section StatusFailed.
Context (bus : I2CBus).

Lemma status_failed l r c t tr i o n :
  slot_at l i = Some o ->
  readByte bus tr (address o) STATUS_REGISTER = (n, None) -> n <> 0 ->
  status bus i (mkWorld l r c t tr) =
  Some (171, mkWorld (set_nth l (Z.to_nat i)
                        (Some (with_nacks o (nacksCount o + 1))))
                     r c t (EvReadByte (address o) STATUS_REGISTER :: tr)).
Proof.
  intros Hs H1 Hn; rewrite <- Z.eqb_neq in Hn.
  crunch Hs; reflexivity.
Qed.

Lemma pending_status_failed l r c t tr i o n :
  slot_at l i = Some o -> lidar_state o = ACQUISITION_PENDING ->
  readByte bus tr (address o) STATUS_REGISTER = (n, None) -> n <> 0 ->
  spin_case bus i (mkWorld l r c t tr) =
  Some (tt, mkWorld (set_nth l (Z.to_nat i)
                       (Some (with_nacks o (nacksCount o + 1))))
                    r c t (EvReadByte (address o) STATUS_REGISTER :: tr)).
Proof.
  intros Hs Hst H1 Hn; rewrite <- Z.eqb_neq in Hn.
  assert (Ht : Z.testbit 171 0 = true) by reflexivity.
  crunch Hs; reflexivity.
Qed.

End StatusFailed.

Section DistanceRead.
Context (bus : I2CBus).

Lemma distance_op_result l r c t tr i o nd b0 b1 :
  slot_at l i = Some o ->
  readWord bus tr (address o) MEASURED_VALUE_REGISTER = (nd, (b0, b1)) ->
  distance_op bus i (mkWorld l r c t tr) =
  Some ((nd, Z.shiftl b0 8 + b1),
        mkWorld (if nd =? 0 then l
                 else set_nth l (Z.to_nat i)
                        (Some (with_nacks o (nacksCount o + 1))))
                r c t (EvReadWord (address o) MEASURED_VALUE_REGISTER :: tr)).
Proof.
  intros Hs H1.
  crunch Hs; cbn in *; first [discriminate | reflexivity].
Qed.

End DistanceRead.

Lemma lidar_at_store w i o o' :
  lidar_at w i = Some o -> lidar_at (store_slot i o' w) i = Some o'.
Proof. unfold lidar_at, store_slot; cbn [lidars]; apply slot_at_set_same. Qed.

(** * Properties of the controller *)

(** ** Reset sequencing *)

(** C1 (code_bug): the latch [resetOngoing] does not keep two sensors out of
    their reset phase at once.  [postReset], run by a sensor leaving
    [SHUTING_DOWN], clears the latch although that sensor never set it, so
    a second sensor in [NEED_RESET] is powered on while the first one is
    still in [RESET_PENDING] on the shared address: after the scenario
    [two_resets] both sensors are in [RESET_PENDING] with power enabled. *)
Theorem C1_latch_released_by_shutdown :
  exists w, run healthy_bus two_resets init_world = Some (tt, w)
    /\ lidar_at w 0 = Some (mkLidar 100 RESET_PENDING 0 0 0 0 true 110)
    /\ lidar_at w 1 = Some (mkLidar 102 RESET_PENDING 0 0 0 0 true 126)
    /\ resetOngoing w = true
    /\ reset_phase_count w = 2%nat.
Proof.
  eexists; split; [vm_compute; reflexivity|].
  vm_compute; repeat split.
Qed.

(** ** Registration *)

(** C2 (claim as stated, refuted): nine registrations of slot 0 are all
    accepted and leave [getCount()] at 9. *)
Lemma C2_ninth_registration_accepted :
  ~ (forall bus cs w, run bus cs init_world = Some (tt, w) ->
                      count w <= MAX_LIDARS).
Proof.
  intros H; specialize (H healthy_bus nine_adds).
  vm_compute in H; specialize (H _ eq_refl).
  vm_compute in H; apply H; reflexivity.
Qed.

(** C2 (amended): [add] with a slot index of at least 8 returns false and
    changes nothing. [add] with a slot index below 8 is accepted whether or
    not the slot already holds a sensor, and increments [count] modulo 256.
    So after any run from the initial state, [getCount()] is the number of
    accepted registrations, re-registrations included, modulo 256; when no
    slot index is registered twice, it is exactly that number and never
    exceeds 8. *)
Theorem C2_registration_count (bus : I2CBus) (o : LidarObject) (id : Z)
    (w0 : World) (cs : list cmd) (w : World) :
  (MAX_LIDARS <= id -> add o id w0 = Some (false, w0)) /\
  (0 <= id < MAX_LIDARS -> length (lidars w0) = Z.to_nat MAX_LIDARS ->
   exists w1, add o id w0 = Some (true, w1)
     /\ count w1 = (count w0 + 1) mod 256) /\
  (run bus cs init_world = Some (tt, w) ->
   count w = Z.of_nat (length (add_ids cs)) mod 256 /\
   (NoDup (add_ids cs) ->
    count w = Z.of_nat (length (add_ids cs)) /\ count w <= MAX_LIDARS)).
Proof.
  split; [|split].
  - intros Hid; unfold add; rewrite (proj2 (Z.leb_le _ _) Hid); reflexivity.
  - intros Hid Hl; eexists; split; [exact (add_in_range w0 o id Hid Hl)|].
    reflexivity.
  - intros Hrun.
    rewrite (run_count _ _ _ _ Hrun) by (cbn; lia); cbn [count init_world].
    rewrite Z.add_0_l; split; [reflexivity|].
    intros Hnd.
    pose proof (slots_nodup_length _ Hnd (add_ids_slots cs)) as Hlen.
    rewrite Z.mod_small by lia; unfold MAX_LIDARS; lia.
Qed.

Lemma C2_witness :
  add lidarA 9 init_world = Some (false, init_world) /\
  (exists w1, add lidarA 0 w_pending = Some (true, w1) /\ count w1 = 2) /\
  (exists w9, run healthy_bus nine_adds init_world = Some (tt, w9)
     /\ count w9 = 9) /\
  count (match run healthy_bus [CAdd 0 lidarA 0; CAdd 0 lidarB 1]
                   init_world with
         | Some (_, w) => w
         | None => init_world
         end) = 2.
Proof.
  split; [|split; [|split]].
  - apply (proj1 (C2_registration_count healthy_bus lidarA 9 init_world []
                    init_world)); unfold MAX_LIDARS; lia.
  - apply (proj1 (proj2 (C2_registration_count healthy_bus lidarA 0 w_pending
                           [] init_world))); [unfold MAX_LIDARS; lia | reflexivity].
  - destruct (run healthy_bus nine_adds init_world) as [[[] w9]|] eqn:E;
      [|vm_compute in E; discriminate].
    exists w9; split; [reflexivity|].
    rewrite (proj1 (proj2 (proj2 (C2_registration_count healthy_bus lidarA 0
                                    init_world nine_adds w9)) E)).
    reflexivity.
  - destruct (run healthy_bus [CAdd 0 lidarA 0; CAdd 0 lidarB 1] init_world)
      as [[[] w2]|] eqn:E; [|vm_compute in E; discriminate].
    assert (Hnd : NoDup (add_ids [CAdd 0 lidarA 0; CAdd 0 lidarB 1]))
      by (vm_compute; repeat constructor; cbn; intuition discriminate).
    rewrite (proj1 (proj2 (proj2 (proj2 (C2_registration_count healthy_bus
               lidarA 9 init_world [CAdd 0 lidarA 0; CAdd 0 lidarB 1] w2)) E)
               Hnd)).
    reflexivity.
Defined.

(** ** The fault counter *)

(** C3: after the state case of a loop iteration, a fault counter above
    [MAX_NACKS] (10) sends the sensor to [SHUTING_DOWN] with its counter
    cleared, its power off and its timer re-armed. *)
Theorem C3_fault_threshold_forces_reset bus i w wm om :
  spin_case bus i w = Some (tt, wm) -> lidar_at wm i = Some om ->
  MAX_NACKS < nacksCount om ->
  exists w', spin_slot bus i w = Some (tt, w')
    /\ lidar_at w' i = Some (forced_reset om (now wm))
    /\ lidar_state (forced_reset om (now wm)) = SHUTING_DOWN
    /\ nacksCount (forced_reset om (now wm)) = 0.
Proof.
  intros Hc Hm Hn.
  exists (store_slot i (forced_reset om (now wm)) wm); split; [|split; [|auto]].
  - unfold spin_slot; rewrite (bind_some _ _ _ _ _ Hc).
    rewrite (check_and_reset _ _ _ Hm), (proj2 (Z.ltb_lt _ _) Hn).
    reflexivity.
  - eapply lidar_at_store; exact Hm.
Qed.

Lemma C3_witness :
  exists w', spin_slot nack_writes_bus 0 w_at_threshold = Some (tt, w')
    /\ lidar_at w' 0
       = Some (forced_reset (mkLidar 100 ACQUISITION_READY 0 0 0 11 true 0) 0).
Proof.
  destruct (C3_fault_threshold_forces_reset nack_writes_bus 0 w_at_threshold
              (mkWorld (Some (mkLidar 100 ACQUISITION_READY 0 0 0 11 true 0)
                        :: repeat None 7) false 1 0 [EvWrite 100 28 32])
              (mkLidar 100 ACQUISITION_READY 0 0 0 11 true 0))
    as (w' & H1 & H2 & _).
  - vm_compute; reflexivity.
  - vm_compute; reflexivity.
  - vm_compute; reflexivity.
  - exists w'; split; assumption.
Defined.

(** ** The [ACQUISITION_PENDING] case *)

(** C4: a fresh reading [d] (status and distance reads acknowledged, busy
    bit clear) is stored as [distance], the old value moves to
    [last_distance], the state becomes [ACQUISITION_DONE], and the fault
    counter grows by exactly one when [d] is suspect, by nothing
    otherwise. *)
Theorem C4_suspect_reading_stored bus i w o s b0 b1 :
  lidar_at w i = Some o -> lidar_state o = ACQUISITION_PENDING ->
  readByte bus (trace w) (address o) STATUS_REGISTER = (0, Some s) ->
  Z.testbit s 0 = false ->
  readWord bus (EvReadByte (address o) STATUS_REGISTER :: trace w)
           (address o) MEASURED_VALUE_REGISTER = (0, (b0, b1)) ->
  exists w', spin_case bus i w = Some (tt, w')
    /\ lidar_at w' i =
       Some (mkLidar (address o) ACQUISITION_DONE (Z.shiftl b0 8 + b1)
               (distance o) (strength o)
               (nacksCount o
                + (if suspect (Z.shiftl b0 8 + b1) (distance o) then 1 else 0))
               (powered o) (timer o)).
Proof.
  destruct w as [l r c t tr]; unfold lidar_at; cbn [lidars trace].
  intros Hs Hst H1 H2 H3.
  rewrite (pending_case bus l r c t tr i o 0 (Some s) 0 b0 b1 Hs Hst H1 H2 H3).
  eexists; split; [reflexivity|]; cbn [lidars].
  erewrite slot_at_set_same by exact Hs.
  unfold nack_inc; cbn [Z.eqb]; rewrite !Z.add_0_r; reflexivity.
Qed.

(** The spec's example: a reading of 1500 is stored and counted once. *)
Lemma C4_witness :
  exists w', spin_case reading_1500_bus 0 w_pending = Some (tt, w')
    /\ lidar_at w' 0
       = Some (mkLidar 100 ACQUISITION_DONE 1500 500 0 1 true 0).
Proof.
  destruct (C4_suspect_reading_stored reading_1500_bus 0 w_pending
              (mkLidar 100 ACQUISITION_PENDING 500 480 0 0 true 0) 0 5 220)
    as (w' & H1 & H2).
  - reflexivity.
  - reflexivity.
  - reflexivity.
  - reflexivity.
  - reflexivity.
  - exists w'; split; [exact H1|]; rewrite H2; vm_compute; reflexivity.
Defined.

(** ** Address reassignment *)

(** C5: when 0x62 does not answer, [changeAddress] returns 6 and issues no
    transaction after the probe. *)
Theorem C5_unresponsive_no_transaction bus i w o :
  lidar_at w i = Some o -> isOnline bus (trace w) 98 = false ->
  exists w', changeAddress bus i w = Some (6, w')
    /\ trace w' = EvIsOnline 98 :: trace w.
Proof.
  destruct w as [l r c t tr]; unfold lidar_at; cbn [lidars trace].
  intros Hs Hon; rewrite (changeAddress_offline bus l r c t tr i o Hs Hon).
  eexists; split; reflexivity.
Qed.

Lemma C5_witness :
  exists w', changeAddress silent_bus 0 w_reassign = Some (6, w')
    /\ trace w' = [EvIsOnline 98].
Proof.
  apply (C5_unresponsive_no_transaction silent_bus 0 w_reassign
           (mkLidar 100 RESET_PENDING 0 0 0 0 true 0)); reflexivity.
Defined.

(** C6 (claim as stated, refuted): a failed identifier read is not
    reported: on [serial_fail_bus] [changeAddress] goes on to write the
    identifier bytes, the address and the party-line value, and returns 0. *)
Lemma C6_read_failure_not_reported :
  ~ (forall bus i w o r w',
       lidar_at w i = Some o ->
       fst (readWord bus (EvIsOnline (address o) :: EvIsOnline 98 :: trace w)
                     98 150) <> 0 ->
       changeAddress bus i w = Some (r, w') ->
       r <> 0 /\ (forall a reg v, In (EvWrite a reg v) (trace w') ->
                                  In (EvWrite a reg v) (trace w))).
Proof.
  intros H.
  destruct (H serial_fail_bus 0 w_reassign
              (mkLidar 100 RESET_PENDING 0 0 0 0 true 0) 0
              (mkWorld (Some (mkLidar 100 RESET_PENDING 0 0 0 1 true 0)
                        :: repeat None 7) true 1 50
                       [EvWrite 98 30 8; EvWrite 98 26 100; EvWrite 98 25 0;
                        EvWrite 98 24 0; EvReadWord 98 150; EvIsOnline 100;
                        EvIsOnline 98])) as [Hr _].
  - reflexivity.
  - vm_compute; discriminate.
  - vm_compute; reflexivity.
  - apply Hr; reflexivity.
Qed.

(** C6 (amended): when the identifier read fails, [changeAddress] counts one
    fault and carries on with the buffer contents: it writes both bytes, the
    target address and the party-line value to 0x62, and with all four
    writes acknowledged it returns 0. *)
Theorem C6_read_failure_continues bus i w o n s0 s1 :
  lidar_at w i = Some o -> isOnline bus (trace w) 98 = true ->
  isOnline bus (EvIsOnline 98 :: trace w) (address o) = false ->
  readWord bus (EvIsOnline (address o) :: EvIsOnline 98 :: trace w) 98 150
    = (n, (s0, s1)) -> n <> 0 ->
  (forall tr reg v, i2c_write bus tr 98 reg v = 0) ->
  exists w', changeAddress bus i w = Some (0, w')
    /\ lidar_at w' i = Some (with_nacks o (nacksCount o + 1))
    /\ trace w' = [EvWrite 98 30 8; EvWrite 98 26 (address o);
                   EvWrite 98 25 s1; EvWrite 98 24 s0; EvReadWord 98 150;
                   EvIsOnline (address o); EvIsOnline 98] ++ trace w.
Proof.
  destruct w as [l r c t tr]; unfold lidar_at; cbn [lidars trace].
  intros Hs H1 H2 H3 Hn Hw.
  rewrite (changeAddress_serial_failed bus l r c t tr i o n s0 s1
             Hs H1 H2 H3 Hn Hw).
  eexists; split; [reflexivity|]; split; [|reflexivity]; cbn [lidars].
  eapply slot_at_set_same; exact Hs.
Qed.

Lemma C6_witness :
  exists w', changeAddress serial_fail_bus 0 w_reassign = Some (0, w')
    /\ lidar_at w' 0 = Some (mkLidar 100 RESET_PENDING 0 0 0 1 true 0)
    /\ trace w' = [EvWrite 98 30 8; EvWrite 98 26 100; EvWrite 98 25 0;
                   EvWrite 98 24 0; EvReadWord 98 150; EvIsOnline 100;
                   EvIsOnline 98].
Proof.
  apply (C6_read_failure_continues serial_fail_bus 0 w_reassign
           (mkLidar 100 RESET_PENDING 0 0 0 0 true 0) 1 0 0);
    try reflexivity.
  - discriminate.
Defined.

(** ** Transitions per tick *)

(** C7 (claim as stated, refuted): in one loop iteration a sensor can take
    the edge [NEED_CONFIGURE -> ACQUISITION_READY] and then be forced to
    [SHUTING_DOWN] by the fault check, which is not a single edge. *)
Lemma C7_two_transitions_in_one_tick :
  ~ (forall bus i w w' o o',
       lidar_at w i = Some o -> spin_slot bus i w = Some (tt, w') ->
       lidar_at w' i = Some o' ->
       lidar_state o' = lidar_state o
       \/ lifecycle_edge (lidar_state o) (lidar_state o')).
Proof.
  intros H.
  destruct (H nack_writes_bus 0 w_at_threshold
              (mkWorld (Some (forced_reset
                                (mkLidar 100 ACQUISITION_READY 0 0 0 11 true 0)
                                0) :: repeat None 7) false 1 0
                       [EvWrite 100 28 32])
              (mkLidar 100 NEED_CONFIGURE 0 0 0 10 true 0)
              (forced_reset (mkLidar 100 ACQUISITION_READY 0 0 0 11 true 0) 0))
    as [E|E].
  - reflexivity.
  - vm_compute; reflexivity.
  - reflexivity.
  - discriminate.
  - inversion E.
Qed.

(** C7 (amended): one loop iteration applies to the sensor at most one edge
    of the transition table (none when it waits), and then, when the fault
    counter exceeds [MAX_NACKS], the forced reset to [SHUTING_DOWN]. *)
Theorem C7_one_edge_then_fault_check bus i w o w' :
  lidar_at w i = Some o -> spin_slot bus i w = Some (tt, w') ->
  exists wm om, spin_case bus i w = Some (tt, wm)
    /\ lidar_at wm i = Some om
    /\ (lidar_state om = lidar_state o
        \/ lifecycle_edge (lidar_state o) (lidar_state om))
    /\ lidar_at w' i = Some (if MAX_NACKS <? nacksCount om
                             then forced_reset om (now wm) else om).
Proof.
  intros Hs Hrun.
  destruct (spin_slot_split bus w i o w' Hs Hrun) as (wm & om & H1 & H2 & H3 & ->).
  exists wm, om; repeat split; auto.
  destruct (MAX_NACKS <? nacksCount om); [|exact H2].
  eapply lidar_at_store; exact H2.
Qed.

Lemma C7_witness :
  exists wm om, spin_case healthy_bus 0 w_pending = Some (tt, wm)
    /\ lidar_at wm 0 = Some om
    /\ (lidar_state om = ACQUISITION_PENDING
        \/ lifecycle_edge ACQUISITION_PENDING (lidar_state om)).
Proof.
  destruct (C7_one_edge_then_fault_check healthy_bus 0 w_pending
              (mkLidar 100 ACQUISITION_PENDING 500 480 0 0 true 0)
              (mkWorld (Some (mkLidar 100 ACQUISITION_DONE 500 500 0 0 true 0)
                        :: repeat None 7) false 1 0
                       [EvReadWord 100 143; EvReadByte 100 1]))
    as (wm & om & H1 & H2 & H3 & _).
  - reflexivity.
  - vm_compute; reflexivity.
  - exists wm, om; auto.
Defined.

(** ** Failed bus reads in the [ACQUISITION_PENDING] case *)

(** C8: a failed status read that leaves the buffer alone makes [status]
    return 171, whose bit 0 is set, so the sensor stays in
    [ACQUISITION_PENDING] (or is sent to [SHUTING_DOWN] by the fault check)
    and never reaches [ACQUISITION_DONE] in that tick. *)
Theorem C8_failed_status_keeps_pending bus i w o n :
  lidar_at w i = Some o -> lidar_state o = ACQUISITION_PENDING ->
  readByte bus (trace w) (address o) STATUS_REGISTER = (n, None) -> n <> 0 ->
  (exists w1, status bus i w = Some (171, w1)) /\ Z.testbit 171 0 = true /\
  exists w' o', spin_slot bus i w = Some (tt, w') /\ lidar_at w' i = Some o'
    /\ (lidar_state o' = ACQUISITION_PENDING
        \/ lidar_state o' = SHUTING_DOWN).
Proof.
  destruct w as [l r c t tr]; unfold lidar_at at 1; cbn [lidars trace].
  intros Hs Hst H1 Hn.
  split; [eexists; apply (status_failed bus l r c t tr i o n Hs H1 Hn)|].
  split; [reflexivity|].
  set (om := with_nacks o (nacksCount o + 1)).
  set (wm := mkWorld (set_nth l (Z.to_nat i) (Some om)) r c t
                     (EvReadByte (address o) STATUS_REGISTER :: tr)).
  assert (Hm : lidar_at wm i = Some om)
    by (unfold lidar_at, wm; cbn [lidars]; eapply slot_at_set_same; exact Hs).
  unfold spin_slot.
  rewrite (bind_some _ _ _ _ _
             (pending_status_failed bus l r c t tr i o n Hs Hst H1 Hn)).
  fold om wm; rewrite (check_and_reset _ _ _ Hm).
  destruct (MAX_NACKS <? nacksCount om).
  - eexists; eexists; split; [reflexivity|]; split.
    + eapply lidar_at_store; exact Hm.
    + right; reflexivity.
  - eexists; eexists; split; [reflexivity|]; split.
    + exact Hm.
    + left; exact Hst.
Qed.

Lemma C8_witness :
  (exists w1, status silent_bus 0 w_pending = Some (171, w1))
  /\ Z.testbit 171 0 = true /\
  exists w' o', spin_slot silent_bus 0 w_pending = Some (tt, w')
    /\ lidar_at w' 0 = Some o'
    /\ (lidar_state o' = ACQUISITION_PENDING
        \/ lidar_state o' = SHUTING_DOWN).
Proof.
  apply (C8_failed_status_keeps_pending silent_bus 0 w_pending
           (mkLidar 100 ACQUISITION_PENDING 500 480 0 0 true 0) 2);
    try reflexivity.
  - discriminate.
Defined.

(** C9: when the distance read fails (status acknowledged or not, busy bit
    clear), [distance] still returns the value composed from the two buffer
    bytes, and the [ACQUISITION_PENDING] case stores it as [distance], moves
    the old value to [last_distance] and goes to [ACQUISITION_DONE]; the
    failure only adds one to the fault counter. *)
Theorem C9_failed_distance_read_still_stored bus i w o ns os nd b0 b1 :
  lidar_at w i = Some o -> lidar_state o = ACQUISITION_PENDING ->
  readByte bus (trace w) (address o) STATUS_REGISTER = (ns, os) ->
  Z.testbit (match os with Some b => b | None => 171 end) 0 = false ->
  readWord bus (EvReadByte (address o) STATUS_REGISTER :: trace w)
           (address o) MEASURED_VALUE_REGISTER = (nd, (b0, b1)) ->
  nd <> 0 ->
  (forall w1 o1, lidar_at w1 i = Some o1 ->
     readWord bus (trace w1) (address o1) MEASURED_VALUE_REGISTER
       = (nd, (b0, b1)) ->
     exists w1', distance_op bus i w1 = Some ((nd, Z.shiftl b0 8 + b1), w1')
       /\ lidar_at w1' i = Some (with_nacks o1 (nacksCount o1 + 1))) /\
  exists w', spin_case bus i w = Some (tt, w')
    /\ lidar_at w' i =
       Some (mkLidar (address o) ACQUISITION_DONE (Z.shiftl b0 8 + b1)
               (distance o) (strength o)
               (nacksCount o + nack_inc ns + 1
                + (if suspect (Z.shiftl b0 8 + b1) (distance o) then 1 else 0))
               (powered o) (timer o)).
Proof.
  intros Hs Hst H1 H2 H3 Hn; split.
  - intros [l1 r1 c1 t1 tr1] o1; unfold lidar_at; cbn [lidars trace].
    intros Hs1 Hr1.
    rewrite (distance_op_result bus l1 r1 c1 t1 tr1 i o1 nd b0 b1 Hs1 Hr1).
    rewrite (proj2 (Z.eqb_neq nd 0) Hn).
    eexists; split; [reflexivity|]; cbn [lidars].
    eapply slot_at_set_same; exact Hs1.
  - destruct w as [l r c t tr]; unfold lidar_at in *; cbn [lidars trace] in *.
    rewrite (pending_case bus l r c t tr i o ns os nd b0 b1 Hs Hst H1 H2 H3).
    eexists; split; [reflexivity|]; cbn [lidars].
    erewrite slot_at_set_same by exact Hs.
    unfold nack_inc at 2; rewrite (proj2 (Z.eqb_neq nd 0) Hn); reflexivity.
Qed.

Lemma C9_witness :
  (exists w1', distance_op distance_fail_bus 0 w_pending
                 = Some ((2, 500), w1')
     /\ lidar_at w1' 0
        = Some (mkLidar 100 ACQUISITION_PENDING 500 480 0 1 true 0)) /\
  exists w', spin_case distance_fail_bus 0 w_pending = Some (tt, w')
    /\ lidar_at w' 0
       = Some (mkLidar 100 ACQUISITION_DONE 500 500 0 1 true 0).
Proof.
  destruct (C9_failed_distance_read_still_stored distance_fail_bus 0 w_pending
              (mkLidar 100 ACQUISITION_PENDING 500 480 0 0 true 0)
              0 (Some 0) 2 1 244) as [HA (w' & H1 & H2)].
  - reflexivity.
  - reflexivity.
  - reflexivity.
  - reflexivity.
  - reflexivity.
  - discriminate.
  - split.
    + apply (HA w_pending (mkLidar 100 ACQUISITION_PENDING 500 480 0 0 true 0));
        reflexivity.
    + exists w'; split; [exact H1|]; rewrite H2; vm_compute; reflexivity.
Defined.

(** C10: when [changeAddress] fails a precondition (0x62 silent: 6; target
    address taken: 5) it adds one to the fault counter although it wrote
    nothing: only the probes are on the bus.  When the preconditions keep
    failing, eleven attempts push a non-negative counter above [MAX_NACKS],
    and the fault check then forces the sensor to [SHUTING_DOWN]. *)
Theorem C10_precondition_failure_counts bus i w o :
  lidar_at w i = Some o ->
  (isOnline bus (trace w) 98 = false ->
   exists w', changeAddress bus i w = Some (6, w')
     /\ lidar_at w' i = Some (with_nacks o (nacksCount o + 1))
     /\ trace w' = EvIsOnline 98 :: trace w) /\
  (isOnline bus (trace w) 98 = true ->
   isOnline bus (EvIsOnline 98 :: trace w) (address o) = true ->
   exists w', changeAddress bus i w = Some (5, w')
     /\ lidar_at w' i = Some (with_nacks o (nacksCount o + 1))
     /\ trace w' = EvIsOnline (address o) :: EvIsOnline 98 :: trace w) /\
  ((forall tr', isOnline bus tr' 98 = false
                \/ isOnline bus (EvIsOnline 98 :: tr') (address o) = true) ->
   0 <= nacksCount o ->
   exists w' o', changeAddress_n bus 11 i w = Some (tt, w')
     /\ lidar_at w' i = Some o' /\ MAX_NACKS < nacksCount o'
     /\ (r <- checkNacks i ;; if r then resetLidar i else ret tt) w'
        = Some (tt, store_slot i (forced_reset o' (now w')) w')).
Proof.
  destruct w as [l r c t tr]; unfold lidar_at at 1; cbn [lidars trace].
  intros Hs; split; [|split].
  - intros Hon; rewrite (changeAddress_offline bus l r c t tr i o Hs Hon).
    eexists; split; [reflexivity|]; split; [|reflexivity].
    unfold lidar_at; cbn [lidars]; eapply slot_at_set_same; exact Hs.
  - intros H1 H2; rewrite (changeAddress_occupied bus l r c t tr i o Hs H1 H2).
    eexists; split; [reflexivity|]; split; [|reflexivity].
    unfold lidar_at; cbn [lidars]; eapply slot_at_set_same; exact Hs.
  - intros Hoff Hpos.
    destruct (changeAddress_n_refused bus 11 l r c t tr i o Hs Hoff)
      as [tr' ->].
    set (o' := with_nacks o (nacksCount o + Z.of_nat 11)).
    set (w' := mkWorld (set_nth l (Z.to_nat i) (Some o')) r c t tr').
    assert (Hm : lidar_at w' i = Some o')
      by (unfold lidar_at, w'; cbn [lidars]; eapply slot_at_set_same;
          exact Hs).
    assert (Hn : MAX_NACKS < nacksCount o')
      by (unfold o', with_nacks, MAX_NACKS; cbn [nacksCount Z.of_nat]; lia).
    exists w', o'; split; [reflexivity|]; split; [exact Hm|];
      split; [exact Hn|].
    rewrite (check_and_reset _ _ _ Hm), (proj2 (Z.ltb_lt _ _) Hn).
    reflexivity.
Qed.

Lemma C10_witness :
  exists w' o', changeAddress_n silent_bus 11 0 w_reassign = Some (tt, w')
    /\ lidar_at w' 0 = Some o' /\ MAX_NACKS < nacksCount o'.
Proof.
  destruct (C10_precondition_failure_counts silent_bus 0 w_reassign
              (mkLidar 100 RESET_PENDING 0 0 0 0 true 0))
    as (_ & _ & H3).
  - reflexivity.
  - destruct H3 as (w' & o' & H1 & H2 & H4 & _).
    + intros tr'; left; reflexivity.
    + cbn; lia.
    + exists w', o'; auto.
Defined.

(** * Further properties of the controller *)

(** ** Operations that touch one slot only *)

Lemma lidar_at_store_other w i j o :
  slot_ok i = true -> j <> i -> lidar_at (store_slot i o w) j = lidar_at w j.
Proof.
  intros Hi Hj; unfold lidar_at, store_slot; cbn [lidars].
  destruct (slot_ok j) eqn:Hj'.
  - apply slot_at_set_other; auto.
  - unfold slot_at; rewrite Hj'; reflexivity.
Qed.

Lemma only_slot_ret {A} i (a : A) : only_slot i (ret a).
Proof. intros w b w' H; injection H; intros; subst; reflexivity. Qed.

Lemma only_slot_missing_return {A} i : only_slot i (@missing_return A).
Proof. intros w b w' H; discriminate. Qed.

Lemma only_slot_bind {A B} i (m : M A) (f : A -> M B) :
  only_slot i m -> (forall a, only_slot i (f a)) -> only_slot i (bind m f).
Proof.
  intros Hm Hf w b w' H j Hj; apply bind_inv in H as (a & w1 & H1 & H2).
  rewrite (Hf _ _ _ _ H2 j Hj); eapply Hm; eauto.
Qed.

Lemma only_slot_keep {A} i (m : M A) :
  (forall w a w', m w = Some (a, w') -> lidars w' = lidars w) -> only_slot i m.
Proof. intros H w a w' Hm j _; unfold lidar_at; rewrite (H _ _ _ Hm); auto. Qed.

Create HintDb os.

Ltac os :=
  repeat first
    [ apply only_slot_bind; intros
    | apply only_slot_ret
    | apply only_slot_missing_return
    | solve [eauto with os]
    | match goal with
      | |- only_slot _ (if ?b then _ else _) => destruct b
      | |- only_slot _ (match ?x with _ => _ end) => destruct x
      end
    | apply only_slot_keep; intros ?w ?a ?w' ?H; cbv beta in H;
      first [ injection H; intros; subst; reflexivity
            | match type of H with
              | match ?x with _ => _ end = _ => destruct x; [|discriminate]
              end; injection H; intros; subst; reflexivity ] ].

Section OnlySlot.
Context (bus : I2CBus).

Lemma os_put_lidar i o : only_slot i (put_lidar i o).
Proof.
  intros w a w' H j Hj; unfold put_lidar in H.
  destruct (slot_ok i) eqn:Hi; [|discriminate].
  injection H; intros; subst; apply lidar_at_store_other; auto.
Qed.
Lemma os_get_lidar i j : only_slot i (get_lidar j).
Proof. unfold get_lidar; os. Qed.
Lemma os_get_now i : only_slot i get_now.
Proof. unfold get_now; os. Qed.
Lemma os_get_resetOngoing i : only_slot i get_resetOngoing.
Proof. unfold get_resetOngoing; os. Qed.
Lemma os_set_resetOngoing i b : only_slot i (set_resetOngoing b).
Proof. unfold set_resetOngoing; os. Qed.
Lemma os_emit i e : only_slot i (emit e).
Proof. unfold emit; os. Qed.
Lemma os_isOnline i a : only_slot i (I2C_isOnline bus a).
Proof. unfold I2C_isOnline; os. Qed.
Lemma os_write i a r v : only_slot i (I2C_write bus a r v).
Proof. unfold I2C_write; os. Qed.
Lemma os_readByte i a r : only_slot i (I2C_readByte bus a r).
Proof. unfold I2C_readByte; os. Qed.
Lemma os_readWord i a r : only_slot i (I2C_readWord bus a r).
Proof. unfold I2C_readWord; os. Qed.

#[local] Hint Resolve os_put_lidar os_get_lidar os_get_now os_get_resetOngoing
  os_set_resetOngoing os_emit os_isOnline os_write os_readByte os_readWord
  : os.

Lemma os_modify_lidar i f : only_slot i (modify_lidar i f).
Proof. unfold modify_lidar; os. Qed.
#[local] Hint Resolve os_modify_lidar : os.
Lemma os_setState i s : only_slot i (setState i s).
Proof. unfold setState; os. Qed.
Lemma os_shouldIncrementNack i n : only_slot i (shouldIncrementNack i n).
Proof. unfold shouldIncrementNack; os. Qed.
#[local] Hint Resolve os_setState os_shouldIncrementNack : os.
Lemma os_changeAddress i : only_slot i (changeAddress bus i).
Proof. unfold changeAddress; os. Qed.
Lemma os_configure i c : only_slot i (configure bus i c).
Proof. unfold configure; os. Qed.
Lemma os_status i : only_slot i (status bus i).
Proof. unfold status; os. Qed.
Lemma os_async i : only_slot i (async bus i).
Proof. unfold async; os. Qed.
Lemma os_distance_op i : only_slot i (distance_op bus i).
Proof. unfold distance_op; os. Qed.
Lemma os_signalStrength i b : only_slot i (signalStrength bus i b).
Proof. unfold signalStrength; os. Qed.
Lemma os_setOffset i d : only_slot i (setOffset bus i d).
Proof. unfold setOffset; os. Qed.
Lemma os_resetLidar i : only_slot i (resetLidar i).
Proof. unfold resetLidar; os. Qed.
Lemma os_preReset i : only_slot i (preReset i).
Proof. unfold preReset; os. Qed.
#[local] Hint Resolve os_changeAddress os_configure os_status os_async
  os_distance_op os_signalStrength os_setOffset os_resetLidar os_preReset : os.
Lemma os_postReset i : only_slot i (postReset bus i).
Proof. unfold postReset; os. Qed.
Lemma os_checkNacks i : only_slot i (checkNacks i).
Proof. unfold checkNacks; os. Qed.
#[local] Hint Resolve os_postReset os_checkNacks : os.
Lemma os_spin_case i : only_slot i (spin_case bus i).
Proof. unfold spin_case; os. Qed.
#[local] Hint Resolve os_spin_case : os.
Lemma os_spin_slot i : only_slot i (spin_slot bus i).
Proof. unfold spin_slot; os. Qed.

End OnlySlot.

(** ** The loop [spinOnce] over the slots *)

Lemma spin_slot_empty bus i w :
  lidar_at w i = None -> spin_slot bus i w = None.
Proof.
  intros H; unfold spin_slot, spin_case, bind, get_lidar; rewrite H; reflexivity.
Qed.

Lemma spin_from_frame bus f k w w' :
  spin_from bus f k w = Some (tt, w') ->
  count w' = count w /\
  forall j, j < k \/ count w <= j -> lidar_at w' j = lidar_at w j.
Proof.
  revert k w; induction f as [|f IH]; intros k w H; cbn [spin_from] in H.
  - injection H; intros; subst; auto.
  - unfold bind at 1, get_count in H.
    destruct (k <? count w) eqn:Hk; [|injection H; intros; subst; auto].
    apply Z.ltb_lt in Hk.
    apply bind_inv in H as ([] & w1 & H1 & H2).
    pose proof (kc_spin_slot _ _ _ _ _ H1) as Hc1.
    destruct (IH _ _ H2) as [Hc2 Hf2]; split; [congruence|].
    intros j Hj; rewrite Hf2 by (rewrite Hc1; lia).
    apply (os_spin_slot bus k _ _ _ H1); lia.
Qed.

Lemma spin_from_empty bus f k w j :
  k <= j < k + Z.of_nat f -> j < count w -> lidar_at w j = None ->
  spin_from bus f k w = None.
Proof.
  revert k w; induction f as [|f IH]; intros k w Hj Hc He; [lia|].
  cbn [spin_from]; unfold bind at 1, get_count.
  rewrite (proj2 (Z.ltb_lt k (count w))) by lia.
  destruct (Z.eq_dec j k) as [->|Hne].
  - unfold bind; rewrite (spin_slot_empty _ _ _ He); reflexivity.
  - unfold bind at 1; destruct (spin_slot bus k w) as [[[] w1]|] eqn:H1;
      [|reflexivity].
    apply (IH (k + 1) w1).
    + lia.
    + rewrite (kc_spin_slot _ _ _ _ _ H1); exact Hc.
    + rewrite (os_spin_slot bus k _ _ _ H1 j Hne); exact He.
Qed.

Lemma spin_from_stuck bus f k w j :
  k <= j < k + Z.of_nat f -> j < count w ->
  (forall w1, lidar_at w1 j = lidar_at w j -> spin_slot bus j w1 = None) ->
  spin_from bus f k w = None.
Proof.
  revert k w; induction f as [|f IH]; intros k w Hj Hc He; [lia|].
  cbn [spin_from]; unfold bind at 1, get_count.
  rewrite (proj2 (Z.ltb_lt k (count w))) by lia.
  destruct (Z.eq_dec j k) as [->|Hne].
  - unfold bind; rewrite (He w eq_refl); reflexivity.
  - unfold bind at 1; destruct (spin_slot bus k w) as [[[] w1]|] eqn:H1;
      [|reflexivity].
    apply (IH (k + 1) w1).
    + lia.
    + rewrite (kc_spin_slot _ _ _ _ _ H1); exact Hc.
    + intros w2 Hw2; apply He; rewrite Hw2.
      exact (os_spin_slot bus k _ _ _ H1 j Hne).
Qed.

Lemma spin_slot_bounded bus i w w' o :
  lidar_at w i = Some o -> spin_slot bus i w = Some (tt, w') ->
  exists o', lidar_at w' i = Some o' /\ nacksCount o' <= MAX_NACKS.
Proof.
  intros Hs Hrun.
  destruct (spin_slot_split bus w i o w' Hs Hrun) as (wm & om & _ & H2 & _ & ->).
  destruct (MAX_NACKS <? nacksCount om) eqn:E.
  - eexists; split; [eapply lidar_at_store; exact H2|].
    cbn; unfold MAX_NACKS; lia.
  - eexists; split; [exact H2|]; apply Z.ltb_ge; exact E.
Qed.

Lemma spin_from_bounded bus f k w w' :
  spin_from bus f k w = Some (tt, w') ->
  forall j, k <= j < count w -> j < k + Z.of_nat f ->
  exists o', lidar_at w' j = Some o' /\ nacksCount o' <= MAX_NACKS.
Proof.
  revert k w; induction f as [|f IH]; intros k w H j Hj Hf; [lia|].
  cbn [spin_from] in H; unfold bind at 1, get_count in H.
  rewrite (proj2 (Z.ltb_lt k (count w))) in H by lia.
  apply bind_inv in H as ([] & w1 & H1 & H2).
  pose proof (kc_spin_slot _ _ _ _ _ H1) as Hc1.
  destruct (lidar_at w k) as [o|] eqn:Hs;
    [|rewrite (spin_slot_empty _ _ _ Hs) in H1; discriminate].
  destruct (Z.eq_dec j k) as [->|Hne].
  - destruct (spin_slot_bounded _ _ _ _ _ Hs H1) as (o' & Ho' & Hn).
    exists o'; split; [|exact Hn].
    rewrite (proj2 (spin_from_frame _ _ _ _ _ H2) k) by lia; exact Ho'.
  - apply (IH (k + 1) w1); auto; lia.
Qed.

(** ** One state step ([spin_case]) *)

Lemma with_nacks_id o : with_nacks o (nacksCount o) = o.
Proof. destruct o; reflexivity. Qed.

(** Closes a world equality where slot [i] got back the record it held. *)
Ltac fin_same Hs :=
  rewrite ?Z.add_0_r, ?with_nacks_id, (set_nth_slot _ _ _ Hs); reflexivity.

Section Steps.
Context (bus : I2CBus).

(** A sensor waiting on a condition ([NEED_RESET] while the latch is taken,
    [RESET_PENDING] or [SHUTING_DOWN] before its timer expires) is left as it
    is: the state step issues no transaction and changes nothing. *)
Lemma step_waits w i o :
  lidar_at w i = Some o ->
  (lidar_state o = NEED_RESET /\ resetOngoing w = true)
  \/ ((lidar_state o = RESET_PENDING \/ lidar_state o = SHUTING_DOWN)
      /\ checkTimer o (now w) = false) ->
  spin_case bus i w = Some (tt, w).
Proof.
  destruct w as [l r c t tr]; unfold lidar_at; cbn [lidars resetOngoing now].
  intros Hs [[Hst Hr]|[[Hst|Hst] Ht]]; subst; crunch Hs; reflexivity.
Qed.

(** In [ACQUISITION_PENDING], a status byte with bit 0 set (busy, or the
    171 of a failed read) stops the step after the status read: no distance
    read, the state stays, and only the status nack is counted. *)
Lemma step_busy w i o n os :
  lidar_at w i = Some o -> lidar_state o = ACQUISITION_PENDING ->
  readByte bus (trace w) (address o) STATUS_REGISTER = (n, os) ->
  Z.testbit (match os with Some b => b | None => 171 end) 0 = true ->
  spin_case bus i w =
  Some (tt, mkWorld (set_nth (lidars w) (Z.to_nat i)
                       (Some (with_nacks o (nacksCount o + nack_inc n))))
                    (resetOngoing w) (count w) (now w)
                    (EvReadByte (address o) STATUS_REGISTER :: trace w)).
Proof.
  destruct w as [l r c t tr]; unfold lidar_at; cbn [lidars resetOngoing count now trace].
  intros Hs Hst H1 H2.
  crunch Hs.
  all: try discriminate.
  all: first [reflexivity | fin_same Hs].
Qed.

(** [NEED_CONFIGURE] writes 0x20 to register 0x1c (preset 2) and moves to
    [ACQUISITION_READY] whatever the bus answers; a refused write adds one to
    the fault counter. *)
Lemma step_configure w i o :
  lidar_at w i = Some o -> lidar_state o = NEED_CONFIGURE ->
  spin_case bus i w =
  Some (tt, mkWorld (set_nth (lidars w) (Z.to_nat i)
                       (Some (mkLidar (address o) ACQUISITION_READY (distance o)
                                (last_distance o) (strength o)
                                (nacksCount o + nack_inc
                                   (i2c_write bus (trace w) (address o) 28 32))
                                (powered o) (timer o))))
                    (resetOngoing w) (count w) (now w)
                    (EvWrite (address o) 28 32 :: trace w)).
Proof.
  destruct w as [l r c t tr]; unfold lidar_at; cbn [lidars resetOngoing count now trace].
  intros Hs Hst.
  crunch Hs.
  all: try discriminate.
  all: fin_slot.
Qed.

(** [ACQUISITION_READY] calls [async], which reaches the end of its body
    without a [return]: the step has undefined behaviour. *)
Lemma spin_case_ready w i o :
  lidar_at w i = Some o -> lidar_state o = ACQUISITION_READY ->
  spin_case bus i w = None.
Proof.
  destruct w as [l r c t tr]; unfold lidar_at; cbn [lidars].
  intros Hs Hst.
  crunch Hs.
  all: reflexivity.
Qed.

(** [ACQUISITION_DONE] reads the signal strength, stores it (0 when the
    read leaves the buffer alone), notifies, writes offset 0, and moves to
    [ACQUISITION_READY]; only the strength read's nack is counted, the offset
    write's nack is dropped. *)
Lemma step_publish w i o n os :
  lidar_at w i = Some o -> lidar_state o = ACQUISITION_DONE ->
  readByte bus (trace w) (address o) SIGNAL_STRENGTH_REGISTER = (n, os) ->
  spin_case bus i w =
  Some (tt, mkWorld (set_nth (lidars w) (Z.to_nat i)
                       (Some (mkLidar (address o) ACQUISITION_READY
                                (distance o) (last_distance o)
                                (match os with Some b => b | None => 0 end)
                                (nacksCount o + nack_inc n)
                                (powered o) (timer o))))
                    (resetOngoing w) (count w) (now w)
                    (EvWrite (address o) OFFSET_REGISTER 0 :: EvNotify i
                     :: EvReadByte (address o) SIGNAL_STRENGTH_REGISTER
                     :: trace w)).
Proof.
  destruct w as [l r c t tr]; unfold lidar_at; cbn [lidars resetOngoing count now trace].
  intros Hs Hst H1.
  crunch Hs.
  all: try discriminate.
  all: fin_slot.
Qed.

(** [NEED_RESET] with the latch free takes the latch, powers the sensor on,
    arms its timer at [now] and moves to [RESET_PENDING], with no bus
    transaction. *)
Lemma step_power_on w i o :
  lidar_at w i = Some o -> lidar_state o = NEED_RESET ->
  resetOngoing w = false ->
  spin_case bus i w =
  Some (tt, mkWorld (set_nth (lidars w) (Z.to_nat i)
                       (Some (mkLidar (address o) RESET_PENDING
                                (distance o) (last_distance o) (strength o)
                                (nacksCount o) true (now w))))
                    true (count w) (now w) (trace w)).
Proof.
  destruct w as [l r c t tr]; unfold lidar_at; cbn [lidars resetOngoing count now trace].
  intros Hs Hst Hr; subst.
  crunch Hs.
  all: try discriminate.
  all: fin_slot.
Qed.

End Steps.

Lemma with_nacks_twice o a b : with_nacks (with_nacks o a) b = with_nacks o b.
Proof. reflexivity. Qed.

Section Reassign.
Context (bus : I2CBus).

(** [changeAddress] returns a code between 0 and 6; a code [k] from 1 to 4
    means the last transaction was the write of step [k], refused by the
    bus, and nothing was sent after it; the latch, [count] and the clock are
    unchanged, and the sensor's record changes only by a fault counter that
    does not decrease. *)
Lemma changeAddress_shape l r c t tr i o :
  slot_at l i = Some o ->
  match changeAddress bus i (mkWorld l r c t tr) with
  | Some (code, w') =>
      0 <= code <= 6
      /\ (1 <= code <= 4 ->
          exists v tr0,
            trace w' = EvWrite 98 (failed_step_register code) v :: tr0
            /\ i2c_write bus tr0 98 (failed_step_register code) v <> 0)
      /\ resetOngoing w' = r /\ count w' = c /\ now w' = t
      /\ exists n, lidars w' = set_nth l (Z.to_nat i) (Some (with_nacks o n))
                   /\ nacksCount o <= n
  | None => False
  end.
Proof.
  intros Hs.
  crunch Hs.
  all: cbn [trace resetOngoing count now lidars].
  all: split; [lia|]; split;
       [ intros Hc;
         first [ lia
               | do 2 eexists; split; [reflexivity|];
                 intros E; rewrite E in *; cbn in *; discriminate ]
       | repeat split ].
  all: first
    [ exists (nacksCount o); rewrite with_nacks_id, (set_nth_slot _ _ _ Hs);
      split; [reflexivity | lia]
    | eexists; split; [rewrite ?with_nacks_twice; reflexivity|];
      cbn; lia ].
Qed.

(** [RESET_PENDING] (resp. [SHUTING_DOWN]) with an expired timer runs the
    address reassignment and moves to [NEED_CONFIGURE] (resp. [NEED_RESET])
    whatever its result code; the latch is cleared, and of the sensor's
    fields only the fault counter may grow. *)
Lemma step_reset_done w i o :
  lidar_at w i = Some o ->
  lidar_state o = RESET_PENDING \/ lidar_state o = SHUTING_DOWN ->
  checkTimer o (now w) = true ->
  exists w' n, spin_case bus i w = Some (tt, w')
    /\ lidar_at w' i =
       Some (mkLidar (address o)
               (if state_eqb (lidar_state o) RESET_PENDING
                then NEED_CONFIGURE else NEED_RESET)
               (distance o) (last_distance o) (strength o) n
               (powered o) (timer o))
    /\ nacksCount o <= n /\ resetOngoing w' = false /\ count w' = count w.
Proof.
  destruct w as [l r c t tr]; unfold lidar_at; cbn [lidars now count].
  intros Hs [Hst|Hst] Ht; crunch Hs.
  all: do 2 eexists; split; [reflexivity|].
  all: cbn [lidars resetOngoing count];
       rewrite ?(slot_at_set_same _ _ _ _ Hs), ?Hs.
  all: split; [unfold with_state, with_nacks; cbn; reflexivity|].
  all: cbn; repeat split; lia.
Qed.

(** When every transaction is acknowledged, [changeAddress] writes the two
    identifier bytes it read back to 0x18 and 0x19, the new address to 0x1a
    and 0x08 to 0x1e, returns 0, and leaves every sensor record unchanged. *)
Lemma changeAddress_acknowledged l r c t tr i o s0 s1 :
  slot_at l i = Some o -> isOnline bus tr 98 = true ->
  isOnline bus (EvIsOnline 98 :: tr) (address o) = false ->
  readWord bus (EvIsOnline (address o) :: EvIsOnline 98 :: tr) 98 150
    = (0, (s0, s1)) ->
  (forall tr' reg v, i2c_write bus tr' 98 reg v = 0) ->
  changeAddress bus i (mkWorld l r c t tr) =
  Some (0, mkWorld l r c t
                   (EvWrite 98 30 8 :: EvWrite 98 26 (address o)
                    :: EvWrite 98 25 s1 :: EvWrite 98 24 s0
                    :: EvReadWord 98 150 :: EvIsOnline (address o)
                    :: EvIsOnline 98 :: tr)).
Proof.
  intros Hs H1 H2 H3 Hw. sym Hs. rewrite H1. sym Hs. rewrite H2. sym Hs.
  rewrite H3. sym Hs. do 4 (rewrite Hw; sym Hs). reflexivity.
Qed.

Lemma spin_case_latch w i o :
  lidar_at w i = Some o ->
  match spin_case bus i w with
  | Some (_, w') =>
      resetOngoing w' = resetOngoing w
      \/ (lidar_state o = NEED_RESET /\ resetOngoing w' = true)
      \/ ((lidar_state o = RESET_PENDING \/ lidar_state o = SHUTING_DOWN)
          /\ resetOngoing w' = false)
  | None => True
  end.
Proof.
  destruct w as [l r c t tr]; unfold lidar_at; cbn [lidars resetOngoing].
  intros Hs; destruct (lidar_state o) eqn:Est; crunch Hs.
  all: cbn [resetOngoing]; auto.
Qed.

End Reassign.

Section Accessors.
Context (bus : I2CBus).

Lemma async_ub i w : async bus i w = None.
Proof.
  unfold async, bind at 1; destruct (get_lidar i w) as [[o w1]|]; [|reflexivity].
  unfold bind at 1; destruct (I2C_write bus (address o) CONTROL_REGISTER 4 w1)
    as [[n w2]|]; [|reflexivity].
  unfold bind; destruct (shouldIncrementNack i n w2) as [[? ?]|]; reflexivity.
Qed.

(** [distanceAndAsync] never returns: whatever the bus answers, it ends in
    [async], which has undefined behaviour. *)
Lemma distanceAndAsync_ub i w : distanceAndAsync bus i w = None.
Proof.
  unfold distanceAndAsync, bind at 1.
  destruct (distance_op bus i w) as [[[n d1] w1]|]; [|reflexivity].
  unfold bind at 1.
  destruct ((if negb (n =? 0) then r2 <- distance_op bus i ;; ret (snd r2)
             else ret d1) w1) as [[d w2]|]; [|reflexivity].
  unfold bind; rewrite async_ub; reflexivity.
Qed.

(** [velocity] sends the velocity-mode write, the start write and the read
    of register 0x09 and never changes a sensor record: its nacks are not
    counted. *)
Lemma velocity_result w i o buf :
  lidar_at w i = Some o ->
  exists v,
    velocity bus i buf w =
    Some (v, mkWorld (lidars w) (resetOngoing w) (count w) (now w)
                     (EvReadByte (address o) 9 :: EvWrite (address o) 0 4
                      :: EvWrite (address o) VELOCITY_MODE_REGISTER
                                 VELOCITY_MODE_DATA :: trace w)).
Proof.
  destruct w as [l r c t tr]; unfold lidar_at; cbn [lidars resetOngoing count now trace].
  intros Hs; unfold velocity; crunch Hs; eexists; reflexivity.
Qed.

(** [scale] and [setOffset] issue one write each and never change a sensor
    record: their nacks are not counted. *)
Lemma scale_setOffset_result w i o v :
  lidar_at w i = Some o ->
  scale bus i v w =
  Some (tt, mkWorld (lidars w) (resetOngoing w) (count w) (now w)
                    (EvWrite (address o) SCALE_VELOCITY_REGISTER v :: trace w))
  /\ setOffset bus i v w =
  Some (tt, mkWorld (lidars w) (resetOngoing w) (count w) (now w)
                    (EvWrite (address o) OFFSET_REGISTER v :: trace w)).
Proof.
  destruct w as [l r c t tr]; unfold lidar_at; cbn [lidars resetOngoing count now trace].
  intros Hs; unfold scale; split; crunch Hs; reflexivity.
Qed.

(** [configure] with a configuration number above 3 matches no case: it
    reads no slot of [lidars], issues no transaction and changes nothing,
    whatever the sensor index. *)
Lemma configure_unknown w i cfg :
  3 < cfg -> configure bus i cfg w = Some (tt, w).
Proof.
  intros Hc; unfold configure.
  rewrite (proj2 (Z.eqb_neq cfg 0)), (proj2 (Z.eqb_neq cfg 1)),
    (proj2 (Z.eqb_neq cfg 2)), (proj2 (Z.eqb_neq cfg 3)) by lia.
  reflexivity.
Qed.

End Accessors.

(** [add] with a slot index below 8 stores the sensor in [SHUTING_DOWN] with
    its power off and its timer armed at [now], keeps its other fields,
    increments [count] modulo 256, and issues no bus transaction. *)
Lemma add_registers w o id :
  0 <= id < MAX_LIDARS -> length (lidars w) = Z.to_nat MAX_LIDARS ->
  add o id w =
  Some (true, mkWorld (set_nth (lidars w) (Z.to_nat id)
                         (Some (mkLidar (address o) SHUTING_DOWN (distance o)
                                  (last_distance o) (strength o)
                                  (nacksCount o) false (now w))))
                      (resetOngoing w) ((count w + 1) mod 256) (now w)
                      (trace w)).
Proof. apply add_in_range. Qed.

(** ** The loop as a whole *)

(** [spinOnce] never changes [count] and never touches a slot at or above
    [count]. *)
Theorem spinOnce_keeps_unserved bus w w' :
  spinOnce bus w = Some (tt, w') ->
  count w' = count w /\ forall j, count w <= j -> lidar_at w' j = lidar_at w j.
Proof.
  intros H; destruct (spin_from_frame _ _ _ _ _ H) as [Hc Hf].
  split; [exact Hc|]; intros j Hj; apply Hf; lia.
Qed.

(** After a pass of [spinOnce] that completes, every slot below [count]
    holds a sensor whose fault counter is at most [MAX_NACKS]. *)
Theorem spinOnce_counters_bounded bus w w' :
  spinOnce bus w = Some (tt, w') ->
  forall j, 0 <= j < count w ->
  exists o', lidar_at w' j = Some o' /\ nacksCount o' <= MAX_NACKS.
Proof.
  intros H j Hj.
  assert (Hc8 : count w <= MAX_LIDARS).
  { destruct (Z.le_gt_cases (count w) MAX_LIDARS) as [|Hgt]; [assumption|].
    exfalso; unfold spinOnce in H.
    rewrite (spin_from_empty bus 256 0 w 8) in H; [discriminate | cbn; lia
      | unfold MAX_LIDARS in Hgt; lia | reflexivity]. }
  apply (spin_from_bounded _ _ _ _ _ H); unfold MAX_LIDARS in *; cbn; lia.
Qed.

(** [spinOnce] dereferences every slot below [count]: an empty one makes
    the pass undefined behaviour. *)
Theorem spinOnce_empty_slot bus w j :
  0 <= j < count w -> j < 256 -> lidar_at w j = None -> spinOnce bus w = None.
Proof.
  intros Hj H256 He; unfold spinOnce.
  apply (spin_from_empty bus 256 0 w j); cbn; lia || exact He.
Qed.

(** With [count] above [MAX_LIDARS] (nine registrations of one slot, say),
    [spinOnce] reads [lidars[8]] out of range: undefined behaviour. *)
Theorem spinOnce_overfull bus w :
  MAX_LIDARS < count w -> spinOnce bus w = None.
Proof.
  intros Hc; unfold spinOnce.
  apply (spin_from_empty bus 256 0 w 8); [cbn; lia | unfold MAX_LIDARS in Hc; lia
    | reflexivity].
Qed.

(** A pass of [spinOnce] that reaches a sensor in [ACQUISITION_READY] has
    undefined behaviour: that step calls [async], which ends without a
    [return], and the slots served before it never change that sensor. *)
Theorem spinOnce_ready_ub bus w j o :
  0 <= j < count w -> j < 256 -> lidar_at w j = Some o ->
  lidar_state o = ACQUISITION_READY -> spinOnce bus w = None.
Proof.
  intros Hj H256 Hs Hst; unfold spinOnce.
  apply (spin_from_stuck bus 256 0 w j); [cbn; lia | lia |].
  intros w1 Hw1; rewrite Hs in Hw1.
  unfold spin_slot, bind at 1; rewrite (spin_case_ready bus w1 j o Hw1 Hst).
  reflexivity.
Qed.

(** One loop iteration changes the latch [resetOngoing] only from a reset
    state: it is set only by a sensor in [NEED_RESET] and cleared only by one
    in [RESET_PENDING] or [SHUTING_DOWN]. *)
Theorem spin_slot_latch bus i w o w' :
  lidar_at w i = Some o -> spin_slot bus i w = Some (tt, w') ->
  resetOngoing w' = resetOngoing w
  \/ (lidar_state o = NEED_RESET /\ resetOngoing w' = true)
  \/ ((lidar_state o = RESET_PENDING \/ lidar_state o = SHUTING_DOWN)
      /\ resetOngoing w' = false).
Proof.
  intros Hs Hrun.
  destruct (spin_slot_split bus w i o w' Hs Hrun) as (wm & om & H1 & _ & _ & ->).
  pose proof (spin_case_latch bus w i o Hs) as L; rewrite H1 in L.
  destruct (MAX_NACKS <? nacksCount om); exact L.
Qed.

(** ** Witnesses of the properties above *)

Lemma add_registers_witness :
  add lidarA 3 init_world =
  Some (true, mkWorld (set_nth (lidars init_world) 3
                         (Some (mkLidar 100 SHUTING_DOWN 0 0 0 0 false 0)))
                      false 1 0 []).
Proof. apply (add_registers init_world lidarA 3); [unfold MAX_LIDARS; lia | reflexivity]. Defined.

Lemma spinOnce_keeps_unserved_witness :
  exists w', spinOnce healthy_bus w_pending = Some (tt, w')
    /\ count w' = 1 /\ lidar_at w' 5 = None.
Proof.
  destruct (spinOnce healthy_bus w_pending) as [[[] w']|] eqn:E;
    [|vm_compute in E; discriminate].
  destruct (spinOnce_keeps_unserved healthy_bus w_pending w' E) as [H1 H2].
  exists w'; split; [reflexivity|]; split; [exact H1|].
  rewrite (H2 5) by (vm_compute; discriminate); reflexivity.
Defined.

Lemma spinOnce_counters_bounded_witness :
  exists w' o', spinOnce nack_writes_bus w_at_threshold = Some (tt, w')
    /\ lidar_at w' 0 = Some o' /\ nacksCount o' <= MAX_NACKS.
Proof.
  destruct (spinOnce nack_writes_bus w_at_threshold) as [[[] w']|] eqn:E;
    [|vm_compute in E; discriminate].
  destruct (spinOnce_counters_bounded nack_writes_bus w_at_threshold w' E 0)
    as (o' & H1 & H2); [unfold w_at_threshold; cbn; lia|].
  exists w', o'; auto.
Defined.

Lemma spinOnce_empty_slot_witness :
  spinOnce healthy_bus w_empty_slot = None.
Proof. apply (spinOnce_empty_slot healthy_bus w_empty_slot 0); [cbn; lia | lia | reflexivity]. Defined.

Lemma spinOnce_overfull_witness :
  spinOnce healthy_bus w_overfull = None.
Proof. apply spinOnce_overfull; cbn; unfold MAX_LIDARS; lia. Defined.

Lemma spin_slot_latch_witness :
  exists w', spin_slot healthy_bus 0 (w_need_reset false) = Some (tt, w')
    /\ (resetOngoing w' = false
        \/ (NEED_RESET = NEED_RESET /\ resetOngoing w' = true)
        \/ ((NEED_RESET = RESET_PENDING \/ NEED_RESET = SHUTING_DOWN)
            /\ resetOngoing w' = false)).
Proof.
  destruct (spin_slot healthy_bus 0 (w_need_reset false)) as [[[] w']|] eqn:E;
    [|vm_compute in E; discriminate].
  exists w'; split; [reflexivity|].
  exact (spin_slot_latch healthy_bus 0 (w_need_reset false) lidarA w'
           eq_refl E).
Defined.

Lemma step_waits_witness :
  spin_case healthy_bus 0 (w_need_reset true) = Some (tt, w_need_reset true).
Proof.
  apply (step_waits healthy_bus (w_need_reset true) 0 lidarA); [reflexivity|].
  left; split; reflexivity.
Defined.

Lemma step_busy_witness :
  spin_case silent_bus 0 w_pending =
  Some (tt, mkWorld (Some (mkLidar 100 ACQUISITION_PENDING 500 480 0 1 true 0)
                     :: repeat None 7) false 1 0 [EvReadByte 100 1]).
Proof.
  rewrite (step_busy silent_bus w_pending 0
             (mkLidar 100 ACQUISITION_PENDING 500 480 0 0 true 0) 2 None);
    reflexivity.
Defined.

Lemma step_configure_witness :
  spin_case nack_writes_bus 0 w_at_threshold =
  Some (tt, mkWorld (Some (mkLidar 100 ACQUISITION_READY 0 0 0 11 true 0)
                     :: repeat None 7) false 1 0 [EvWrite 100 28 32]).
Proof.
  rewrite (step_configure nack_writes_bus w_at_threshold 0
             (mkLidar 100 NEED_CONFIGURE 0 0 0 10 true 0));
    reflexivity.
Defined.

Lemma spinOnce_ready_ub_witness :
  spinOnce healthy_bus w_ready = None.
Proof.
  apply (spinOnce_ready_ub healthy_bus w_ready 0
           (mkLidar 100 ACQUISITION_READY 0 0 0 0 true 0));
    [cbn; lia | lia | reflexivity | reflexivity].
Defined.

Lemma step_publish_witness :
  spin_case silent_bus 0 w_done =
  Some (tt, mkWorld (Some (mkLidar 100 ACQUISITION_READY 500 480 0 1 true 0)
                     :: repeat None 7) false 1 0
                    [EvWrite 100 19 0; EvNotify 0; EvReadByte 100 14]).
Proof.
  rewrite (step_publish silent_bus w_done 0
             (mkLidar 100 ACQUISITION_DONE 500 480 0 0 true 0) 2 None);
    reflexivity.
Defined.

Lemma step_power_on_witness :
  spin_case healthy_bus 0 (w_need_reset false) =
  Some (tt, mkWorld (Some (mkLidar 100 RESET_PENDING 0 0 0 0 true 0)
                     :: repeat None 7) true 1 0 []).
Proof.
  rewrite (step_power_on healthy_bus (w_need_reset false) 0 lidarA);
    reflexivity.
Defined.

Lemma step_reset_done_witness :
  exists w' n, spin_case silent_bus 0 w_reassign = Some (tt, w')
    /\ lidar_at w' 0 = Some (mkLidar 100 NEED_CONFIGURE 0 0 0 n true 0)
    /\ 0 <= n /\ resetOngoing w' = false.
Proof.
  destruct (step_reset_done silent_bus w_reassign 0
              (mkLidar 100 RESET_PENDING 0 0 0 0 true 0))
    as (w' & n & H1 & H2 & H3 & H4 & _).
  - reflexivity.
  - left; reflexivity.
  - reflexivity.
  - exists w', n; auto.
Defined.

Lemma changeAddress_shape_witness :
  match changeAddress nack_writes_bus 0
          (mkWorld (Some (mkLidar 100 RESET_PENDING 0 0 0 0 true 0)
                    :: repeat None 7) true 1 50 [])
  with
  | Some (code, w') =>
      0 <= code <= 6
      /\ (1 <= code <= 4 ->
          exists v tr0,
            trace w' = EvWrite 98 (failed_step_register code) v :: tr0
            /\ i2c_write nack_writes_bus tr0 98 (failed_step_register code) v
               <> 0)
  | None => False
  end.
Proof.
  pose proof (changeAddress_shape nack_writes_bus
                (Some (mkLidar 100 RESET_PENDING 0 0 0 0 true 0)
                 :: repeat None 7) true 1 50 [] 0
                (mkLidar 100 RESET_PENDING 0 0 0 0 true 0) eq_refl) as H.
  destruct (changeAddress nack_writes_bus 0 _) as [[code w']|]; [|exact H].
  destruct H as (H1 & H2 & _); split; assumption.
Defined.

Lemma changeAddress_acknowledged_witness :
  changeAddress healthy_bus 0 w_reassign =
  Some (0, mkWorld (lidars w_reassign) true 1 50
                   [EvWrite 98 30 8; EvWrite 98 26 100; EvWrite 98 25 244;
                    EvWrite 98 24 1; EvReadWord 98 150; EvIsOnline 100;
                    EvIsOnline 98]).
Proof.
  apply (changeAddress_acknowledged healthy_bus _ true 1 50 [] 0
           (mkLidar 100 RESET_PENDING 0 0 0 0 true 0) 1 244);
    try reflexivity.
Defined.

Lemma distanceAndAsync_ub_witness :
  distanceAndAsync healthy_bus 0 w_pending = None.
Proof. exact (distanceAndAsync_ub healthy_bus 0 w_pending). Defined.

Lemma velocity_result_witness :
  exists v, velocity silent_bus 0 7 w_pending =
    Some (v, mkWorld (lidars w_pending) false 1 0
                     [EvReadByte 100 9; EvWrite 100 0 4; EvWrite 100 4 160]).
Proof.
  apply (velocity_result silent_bus w_pending 0
           (mkLidar 100 ACQUISITION_PENDING 500 480 0 0 true 0) 7).
  reflexivity.
Defined.

Lemma scale_setOffset_result_witness :
  scale silent_bus 0 40 w_pending =
  Some (tt, mkWorld (lidars w_pending) false 1 0 [EvWrite 100 69 40]).
Proof.
  apply (proj1 (scale_setOffset_result silent_bus w_pending 0
                  (mkLidar 100 ACQUISITION_PENDING 500 480 0 0 true 0) 40
                  eq_refl)).
Defined.

Lemma configure_unknown_witness :
  configure healthy_bus 9 7 w_empty_slot = Some (tt, w_empty_slot).
Proof. apply (configure_unknown healthy_bus w_empty_slot 9 7); lia. Defined.
